(** * Twitch-Chat-Joiner: a shallow embedding of [async_twitch.py]

    The script loads a JSON configuration, validates it, logs a bot into
    Twitch's IRC gateway and then, forever, polls the Helix API for the
    configured streamers that are live and joins / leaves their chats.

    The embedding follows the script function by function.  Python values
    are a small inductive type, the two module globals ([config] and
    [STREAMER_LISTS]) are threaded through a state monad that also records
    what the script prints and sends, exceptions are a result type, and the
    answers of the two HTTP endpoints are inputs of the functions that
    perform the requests. *)

From Stdlib Require Import ZArith Floats.PrimFloat.
From stdpp Require Import gmap strings list pretty.

Set Warnings "-register-all".

Open Scope string_scope.
Open Scope Z_scope.

(** ** Python values, as [json.load] produces them *)

Inductive pyval :=
| PyNone
| PyBool (b : bool)
| PyInt (z : Z)
| PyFloat (f : float)
| PyStr (s : string)
| PyList (elts : list pyval)
| PyDict (items : list (string * pyval)).

(** A [dict] is kept as the list of its items in insertion order; the keys
    of a JSON object are strings. *)
Abbreviation pydict := (list (string * pyval)).

(** [type(v)] *)
Inductive pytype := NoneType | t_bool | t_int | t_float | t_str | t_list | t_dict.

Definition type (v : pyval) : pytype :=
  match v with
  | PyNone => NoneType
  | PyBool _ => t_bool
  | PyInt _ => t_int
  | PyFloat _ => t_float
  | PyStr _ => t_str
  | PyList _ => t_list
  | PyDict _ => t_dict
  end.

Definition pytype_is (s t : pytype) : bool :=
  match s, t with
  | NoneType, NoneType | t_bool, t_bool | t_int, t_int | t_float, t_float
  | t_str, t_str | t_list, t_list | t_dict, t_dict => true
  | _, _ => false
  end.

(** [bool(v)]: the truth value that [not v] negates. *)
Definition truthy (v : pyval) : bool :=
  match v with
  | PyNone => false
  | PyBool b => b
  | PyInt z => negb (z =? 0)
  | PyFloat f => negb (PrimFloat.eqb f 0%float)
  | PyStr s => negb (String.eqb s "")
  | PyList l => match l with [] => false | _ => true end
  | PyDict d => match d with [] => false | _ => true end
  end.

(** Dictionary primitives: [k in d], [d.get(k)] (as an option: Python's
    [None] default is [None] here), [d.keys()], [d[k] = v]. *)
Fixpoint dict_lookup {V : Type} (k : string) (d : list (string * V)) : option V :=
  match d with
  | [] => None
  | (k', v) :: d' => if String.eqb k k' then Some v else dict_lookup k d'
  end.

Definition dict_contains {V : Type} (k : string) (d : list (string * V)) : bool :=
  match dict_lookup k d with Some _ => true | None => false end.

Definition dict_keys {V : Type} (d : list (string * V)) : list string := map fst d.

Fixpoint dict_setitem {V : Type} (k : string) (v : V) (d : list (string * V))
  : list (string * V) :=
  match d with
  | [] => [(k, v)]
  | (k', v') :: d' =>
      if String.eqb k k' then (k, v) :: d' else (k', v') :: dict_setitem k v d'
  end.

(** [d.get(k)] on a dictionary of Python values, with Python's default. *)
Definition py_get (d : pydict) (k : string) : pyval :=
  match dict_lookup k d with Some v => v | None => PyNone end.

(** ** Exceptions and results *)

Inductive exn :=
| Exception (msg : string)
| ExceptionOf (errors : list exn)        (* [raise Exception(errors)] *)
| KeyError (key : string)
| TypeError (msg : string)
| AttributeError (msg : string)
| ContentTypeError                       (* [response.json()] on a non-JSON body *)
| OutOfModel (what : string).            (* a Python behaviour this model leaves out *)

Inductive result (A : Type) :=
| Return (a : A)
| Raise (e : exn).
Arguments Return {A} a.
Arguments Raise {A} e.

(** ** What the process does to the outside world *)

(** The markup tag of a [console.log] line; [PLAIN] is a line without one. *)
Inductive log_tag := LOG | ERROR | WARNING | JOIN | LEAVE | PLAIN.

Inductive event :=
| EvLog (tag : log_tag) (about : string)      (* console.log: tag and subject *)
| EvRule (title : string)                     (* console.rule *)
| EvPost (url : string) (body : pydict)       (* session.post(url, json=body) *)
| EvGet (url : string) (headers : pydict)     (* session.get(url, headers=headers) *)
| EvCloseSession                              (* session.close() *)
| EvSend (command : string) (channel : string) (* bot.send(command, channel=...) *)
| EvSleep (seconds : Z)                       (* asyncio.sleep *)
| EvWait (signals : list string)              (* asyncio.wait on bot.wait(...) *)
| EvClient (host : string) (port : Z)         (* bottom.Client(...) *)
| EvCreateTask (coroutine : string)           (* bot.loop.create_task *)
| EvRunForever.                               (* bot.loop.run_forever *)

(** ** The module's global state and the monad of its functions *)

Record globals := Globals {
  config : pydict;
  STREAMER_LISTS : gmap string (gset string)
}.

Record run (A : Type) := Run {
  outcome : result A;
  after : globals;
  emitted : list event
}.
Arguments Run {A} outcome after emitted.
Arguments outcome {A} r.
Arguments after {A} r.
Arguments emitted {A} r.

Definition IO (A : Type) : Type := globals -> run A.

Definition io_ret {A} (a : A) : IO A := fun g => Run (Return a) g [].

Definition io_bind {A B} (m : IO A) (k : A -> IO B) : IO B :=
  fun g =>
    let r := m g in
    match outcome r with
    | Raise e => Run (Raise e) (after r) (emitted r)
    | Return a =>
        let r' := k a (after r) in
        Run (outcome r') (after r') (emitted r ++ emitted r')
    end.

Notation "x <- m ;; k" := (io_bind m (fun x => k))
  (at level 100, m at next level, right associativity,
   format "'[v' x  <-  m  ;; '/' k ']'").
Notation "m ;;; k" := (io_bind m (fun _ => k))
  (at level 100, right associativity, format "'[v' m  ;;; '/' k ']'").

Definition raise {A} (e : exn) : IO A := fun g => Run (Raise e) g [].
Definition emit (e : event) : IO unit := fun g => Run (Return tt) g [e].
Definition log (tag : log_tag) (about : string) : IO unit := emit (EvLog tag about).
Definition rule (title : string) : IO unit := emit (EvRule title).
Definition read_config : IO pydict := fun g => Run (Return (config g)) g [].
Definition read_lists : IO (gmap string (gset string)) :=
  fun g => Run (Return (STREAMER_LISTS g)) g [].
Definition write_config (c : pydict) : IO unit :=
  fun g => Run (Return tt) (Globals c (STREAMER_LISTS g)) [].
Definition write_lists (l : gmap string (gset string)) : IO unit :=
  fun g => Run (Return tt) (Globals (config g) l) [].
Definition lift {A} (r : result A) : IO A := fun g => Run r g [].

(** [for x in xs: body(x)] *)
Fixpoint for_each {A} (xs : list A) (body : A -> IO unit) : IO unit :=
  match xs with
  | [] => io_ret tt
  | x :: xs' => body x ;;; for_each xs' body
  end.

(** [config[k]] *)
Definition config_getitem (k : string) : IO pyval :=
  c <- read_config ;;
  match dict_lookup k c with
  | Some v => io_ret v
  | None => raise (KeyError k)
  end.

(** ** Configuration validation (lines 31-96) *)

Definition required_keys : list (string * pytype) :=
  [ ("bot_username", t_str);
    ("client_id", t_str);
    ("client_secret", t_str);
    ("oauth_token", t_str);
    ("channels", t_list);
    ("wait_time", t_int);
    ("verbose", t_bool) ].

(** [not v and type(v) is not bool] *)
Definition has_no_value (kv : string * pyval) : bool :=
  negb (truthy kv.2) && negb (pytype_is (type kv.2) t_bool).

(** [required_keys.get(k) is not type(v)] *)
Definition has_bad_type (kv : string * pyval) : bool :=
  match dict_lookup kv.1 required_keys with
  | Some t => negb (pytype_is t (type kv.2))
  | None => true
  end.

(** Each of the three passes logs one line per offending key, collects one
    exception per offending key in [errors], and raises [Exception(errors)]
    when it found anything; the next pass runs only otherwise. *)
Definition validate_config : IO bool :=
  config <- read_config ;;
  (* Key Presence Validation *)
  let not_present_keys :=
    List.filter (fun k => negb (dict_contains k config)) (dict_keys required_keys) in
  for_each not_present_keys (fun key => log ERROR key) ;;;
  let errors := map KeyError not_present_keys in
  if negb (length not_present_keys =? 0)%nat then raise (ExceptionOf errors) else
  (* Value Validation *)
  let not_present_values := List.filter has_no_value config in
  for_each not_present_values (fun kv => log ERROR kv.1) ;;;
  let errors := map (fun kv => TypeError kv.1) not_present_values in
  if negb (length not_present_values =? 0)%nat then raise (ExceptionOf errors) else
  (* Value Type Validation *)
  let bad_type_values := List.filter has_bad_type config in
  for_each bad_type_values (fun kv => log ERROR kv.1) ;;;
  let errors := map (fun kv => TypeError kv.1) bad_type_values in
  if negb (length bad_type_values =? 0)%nat then raise (ExceptionOf errors) else
  io_ret true.

(** ** The two HTTP endpoints

    A response is what the script looks at: the status code and the body as
    [response.json()] decodes it ([None] when the body is not JSON, in which
    case [response.json()] raises). *)

Record http_response := Response {
  status : Z;
  json_body : option pyval
}.

Definition response_json (r : http_response) : result pyval :=
  match json_body r with
  | Some v => Return v
  | None => Raise ContentTypeError
  end.

(** [v.get(k)]: only a [dict] has the method. *)
Definition py_method_get (v : pyval) (k : string) : result pyval :=
  match v with
  | PyDict d => Return (py_get d k)
  | _ => Raise (AttributeError "get")
  end.

(** [v[k]] with a string key. *)
Definition py_getitem (v : pyval) (k : string) : result pyval :=
  match v with
  | PyDict d =>
      match dict_lookup k d with
      | Some x => Return x
      | None => Raise (KeyError k)
      end
  | _ => Raise (TypeError "subscript")
  end.

(** [len(v)] *)
Definition py_len (v : pyval) : result nat :=
  match v with
  | PyStr s => Return (String.length s)
  | PyList l => Return (length l)
  | PyDict d => Return (length d)
  | _ => Raise (TypeError "len")
  end.

(** ["Bearer " + v] *)
Definition str_add (prefix : string) (v : pyval) : result string :=
  match v with
  | PyStr s => Return (prefix ++ s)
  | _ => Raise (TypeError "can only concatenate str")
  end.

(** [int(v)].  Parsing a string and truncating a float are left out:
    [validate_config] admits only an [int] where the script converts. *)
Definition py_int (v : pyval) : result Z :=
  match v with
  | PyInt z => Return z
  | PyBool b => Return (if b then 1 else 0)
  | PyFloat _ => Raise (OutOfModel "int(float)")
  | PyStr _ => Raise (OutOfModel "int(str)")
  | _ => Raise (TypeError "int")
  end.

(** A session handle; [_session] is [None] when the caller passes none. *)
Inductive ClientSession := Session (id : nat).

(** [retrieve_access_token] (lines 166-214); [response] is the answer of
    the token endpoint to the request. *)
Definition retrieve_access_token (client_id client_secret : pyval)
    (_session : option ClientSession) (response : http_response) : IO pyval :=
  let body := [ ("client_id", client_id);
                ("client_secret", client_secret);
                ("grant_type", PyStr "client_credentials") ] in
  emit (EvPost "https://id.twitch.tv/oauth2/token" body) ;;;
  response_data <- lift (response_json response) ;;
  (if status response =? 500 then
     log ERROR "Failed to fetch access token." ;;;
     raise (Exception "Failed to fetch access token.")
   else if negb (String.prefix "2" (pretty (status response))) then
     log WARNING "Status Code for access token fetch is not in the 200 Range."
   else io_ret tt) ;;;
  access_token <- lift (py_method_get response_data "access_token") ;;
  (if pytype_is (type access_token) NoneType then
     log ERROR "Access token is not present in response, please check logs." ;;;
     raise (KeyError "access_token")
   else io_ret tt) ;;;
  (match _session with
   | None => emit EvCloseSession
   | Some _ => io_ret tt
   end) ;;;
  io_ret access_token.

(** [retrieve_streaming_status] (lines 217-243); the one-entry dictionary
    [{streamer_name: live}] it returns is the pair. *)
Definition retrieve_streaming_status (client_id access_token : pyval)
    (streamer_name : string) (_session : option ClientSession)
    (response : http_response) : IO (string * bool) :=
  bearer <- lift (str_add "Bearer " access_token) ;;
  let headers := [ ("Client-ID", client_id); ("Authorization", PyStr bearer) ] in
  emit (EvGet ("https://api.twitch.tv/helix/streams?user_login=" ++ streamer_name)
          headers) ;;;
  response_data <- lift (response_json response) ;;
  data <- lift (py_method_get response_data "data") ;;
  (if negb (pytype_is (type data) t_list) then
     (* something went wrong with the request *)
     log ERROR "Access token is not present in response, please check logs." ;;;
     raise (KeyError "data")
   else io_ret tt) ;;;
  data <- lift (py_getitem response_data "data") ;;
  n <- lift (py_len data) ;;
  io_ret (streamer_name, (n =? 1)%nat).

(** [prepare_socket] (lines 246-259): wait for whichever of the two replies
    comes first. *)
Definition prepare_socket : IO unit :=
  emit (EvWait ["RPL_ENDOFMOTD"; "ERR_NOMOTD"]).

(** What one reconciliation cycle hears from the network: the token
    endpoint's answer and, by position in the channel list, the streams
    endpoint's answer for each streamer. *)
Record cycle_net := CycleNet {
  token_response : http_response;
  stream_response : nat -> http_response
}.

(** [asyncio.gather] over [tasks]: the results in the order of the tasks, or the
    exception of a task that failed.  The tasks are run here one after the
    other and the first failure in list order is the one reported; the
    event loop may interleave them otherwise. *)
Fixpoint gather {A} (tasks : list (IO A)) : IO (list A) :=
  match tasks with
  | [] => io_ret []
  | t :: ts => a <- t ;; rest <- gather ts ;; io_ret (a :: rest)
  end.

(** [dict(ChainMap(...))] over the one-entry dictionaries [data]: a key takes
    its value from the first dictionary that has it, and the keys come in
    the order of their first occurrence from the last dictionary back. *)
Definition ChainMap_dict (data : list (string * bool)) : list (string * bool) :=
  map (fun k => (k, default false (dict_lookup k data)))
      (rev (remove_dups (dict_keys data))).

(** [for streamer in streamers] over the configured channel list.  The
    signature declares [List[str]]; a list with an entry that is not a
    string is left out of the model. *)
Fixpoint str_entries (l : list pyval) : result (list string) :=
  match l with
  | [] => Return []
  | PyStr s :: l' =>
      match str_entries l' with
      | Return ss => Return (s :: ss)
      | Raise e => Raise e
      end
  | _ :: _ => Raise (OutOfModel "channel that is not a str")
  end.

Definition chars (s : string) : list string :=
  map (fun a => String a EmptyString) (String.list_ascii_of_string s).

Definition iter_streamers (streamers : pyval) : result (list string) :=
  match streamers with
  | PyList l => str_entries l
  | PyStr s => Return (chars s)
  | PyDict d => Return (dict_keys d)
  | _ => Raise (TypeError "object is not iterable")
  end.

(** [get_alive_streamers] (lines 262-288) *)
Definition get_alive_streamers (streamers : pyval)
    (_session : option ClientSession) (net : cycle_net) : IO (list string) :=
  client_id <- config_getitem "client_id" ;;
  client_secret <- config_getitem "client_secret" ;;
  access_token <-
    retrieve_access_token client_id client_secret _session (token_response net) ;;
  config <- read_config ;;
  write_config (dict_setitem "access_token" access_token config) ;;;
  names <- lift (iter_streamers streamers) ;;
  data <- gather
    (imap (fun i streamer =>
             client_id <- config_getitem "client_id" ;;
             retrieve_streaming_status client_id access_token streamer _session
               (stream_response net i))
          names) ;;
  let result := map fst (List.filter snd (ChainMap_dict data)) in
  io_ret result.

(** [join_channels] and [leave_channels] (lines 291-308).  The log line
    is the event of its text; [console.log] reading the name in it as
    markup is not modelled, and [markup_free] below gives the names for
    which that makes no difference. *)
Definition join_channels (channels : list string) : IO bool :=
  for_each channels (fun channel =>
    emit (EvSend "JOIN" ("#" ++ channel)) ;;;
    log JOIN channel) ;;;
  io_ret true.

Definition leave_channels (channels : list string) : IO bool :=
  for_each channels (fun channel =>
    emit (EvSend "PART" ("#" ++ channel)) ;;;
    log LEAVE channel) ;;;
  io_ret true.

(** ** The main loop (lines 357-393)

    [STREAMER_LISTS.get("joined", set())] *)
Definition lists_get (lists : gmap string (gset string)) (k : string) : gset string :=
  default ∅ (lists !! k).

(** One pass through the body of [while True].  [list(s)] of a set [s] is
    [elements s]: Python fixes no order for it. *)
Definition cycle (session : ClientSession) (net : cycle_net) : IO unit :=
  rule "Beginning Loop" ;;;
  channels <- config_getitem "channels" ;;
  alive <- get_alive_streamers channels (Some session) net ;;
  let currently_alive_streamers : gset string := list_to_set alive in
  log PLAIN "config" ;;;
  log LOG "Alive Streamers Retrieved" ;;;
  lists <- read_lists ;;
  let previous_alive_streamers := lists_get lists "joined" in
  let now_offline_streamers := previous_alive_streamers ∖ currently_alive_streamers in
  log LOG "Offline Streamers Retrieved" ;;;
  lists <- read_lists ;;
  let to_join_streamers := currently_alive_streamers ∖ lists_get lists "joined" in
  lists <- read_lists ;;
  write_lists (<["joined" := currently_alive_streamers]> lists) ;;;
  lists <- read_lists ;;
  write_lists (<["offline" := now_offline_streamers]> lists) ;;;
  leave_channels (elements now_offline_streamers) ;;;
  join_channels (elements to_join_streamers) ;;;
  rule "Sleeping" ;;;
  wait_time <- config_getitem "wait_time" ;;
  seconds <- lift (py_int wait_time) ;;
  emit (EvSleep seconds).

(** The loop never returns by itself.  [ticks] is what the network answers
    cycle after cycle during the time the process is watched; when they are
    used up the loop is still running, which is the result [tt]. *)
Fixpoint main_loop (session : ClientSession) (ticks : list cycle_net) : IO unit :=
  match ticks with
  | [] => io_ret tt
  | net :: ticks' => cycle session net ;;; main_loop session ticks'
  end.

Definition main (ticks : list cycle_net) : IO unit :=
  let session := Session 0 in
  prepare_socket ;;;
  log LOG "Socket Prepared" ;;;
  main_loop session ticks.

(** ** The module's top level

    [set(v)] at line 26: the value has to be iterable and its elements
    hashable.  A list entry that is hashable without being a string is
    left out of the model. *)
Fixpoint hashable_strs (l : list pyval) : result (list string) :=
  match l with
  | [] => Return []
  | PyStr s :: l' =>
      match hashable_strs l' with
      | Return ss => Return (s :: ss)
      | Raise e => Raise e
      end
  | (PyList _ | PyDict _) :: _ => Raise (TypeError "unhashable type")
  | _ :: _ => Raise (OutOfModel "channel that is not a str")
  end.

Definition py_set (v : pyval) : result (gset string) :=
  match v with
  | PyList l =>
      match hashable_strs l with
      | Return ss => Return (list_to_set ss)
      | Raise e => Raise e
      end
  | PyStr s => Return (list_to_set (chars s))
  | PyDict d => Return (list_to_set (dict_keys d))
  | _ => Raise (TypeError "object is not iterable")
  end.

(** The statements of the module in the order Python runs them, from the
    loaded [config] (a JSON object) on: the two tracking sets, the
    validation, the client, and the two tasks handed to the event loop.
    Registering the event handlers and the signal handler does nothing by
    itself and is left out. *)
Definition module_body : IO unit :=
  config <- read_config ;;
  log LOG "Config Loaded" ;;;
  offline <- lift (py_set (py_get config "channels")) ;;
  write_lists {[ "joined" := ∅; "offline" := offline ]} ;;;
  validate_config ;;;
  emit (EvClient "irc.chat.twitch.tv" 6697) ;;;
  emit (EvCreateTask "bot.connect") ;;;
  emit (EvCreateTask "main") ;;;
  emit EvRunForever.

(** The process starts with the configuration file's content and nothing
    else. *)
Definition loaded (file : pydict) : globals := Globals file ∅.

(** * Vocabulary of the statements

    What the properties below speak of: views of a run's events, the
    answers of the endpoints in the scenarios of the specification, and
    configurations to try the script on. *)

(** [not_present_keys] of the first pass, and the exceptions the passes
    raise. *)
Definition missing_keys (c : pydict) : list string :=
  List.filter (fun k => negb (dict_contains k c)) (dict_keys required_keys).

Definition key_errors (ks : list string) : exn := ExceptionOf (map KeyError ks).

Definition type_errors (kvs : pydict) : exn :=
  ExceptionOf (map (fun kv => TypeError kv.1) kvs).

(** An action is quiet when it sends no command and leaves the tracking
    sets as they are. *)
Definition is_send (e : event) : bool :=
  match e with EvSend _ _ => true | _ => false end.

Definition quiet {A} (m : IO A) : Prop :=
  forall g, STREAMER_LISTS (after (m g)) = STREAMER_LISTS g /\
            Forall (fun e => is_send e = false) (emitted (m g)).

(** What [leave_channels] and [join_channels] emit. *)
Definition leave_events (channels : list string) : list event :=
  flat_map (fun c => [EvSend "PART" ("#" ++ c); EvLog LEAVE c]) channels.

Definition join_events (channels : list string) : list event :=
  flat_map (fun c => [EvSend "JOIN" ("#" ++ c); EvLog JOIN c]) channels.

(** The run [r], after [evs] have been emitted. *)
Definition prepend {A} (evs : list event) (r : run A) : run A :=
  Run (outcome r) (after r) (evs ++ emitted r).

(** The end of a cycle: [asyncio.sleep(int(config["wait_time"]))]. *)
Definition sleep_step : IO unit :=
  wait_time <- config_getitem "wait_time" ;;
  seconds <- lift (py_int wait_time) ;;
  emit (EvSleep seconds).

(** The events of a cycle whose fetch gave [live] while [joined] were joined,
    up to the sleep. *)
Definition cycle_events (fetch : list event) (joined live : gset string) : list event :=
  EvRule "Beginning Loop" :: fetch ++
  [EvLog PLAIN "config"; EvLog LOG "Alive Streamers Retrieved";
   EvLog LOG "Offline Streamers Retrieved"] ++
  leave_events (elements (joined ∖ live)) ++
  join_events (elements (live ∖ joined)) ++
  [EvRule "Sleeping"].

(** A configuration file with the seven keys. *)
Definition sample_config (wait_time : pyval) (channels : list string) : pydict :=
  [ ("bot_username", PyStr "bot");
    ("client_id", PyStr "id");
    ("client_secret", PyStr "secret");
    ("oauth_token", PyStr "oauth:abc");
    ("channels", PyList (map PyStr channels));
    ("wait_time", wait_time);
    ("verbose", PyBool false) ].



(** The warning and the failure of [retrieve_access_token]. *)
Definition token_warning : event :=
  EvLog WARNING "Status Code for access token fetch is not in the 200 Range.".

Definition token_failure : exn := Exception "Failed to fetch access token.".

(** [retrieve_access_token] from the look at the status code on. *)
Definition read_token (response_data : pyval) (_session : option ClientSession)
  : IO pyval :=
  access_token <- lift (py_method_get response_data "access_token") ;;
  (if pytype_is (type access_token) NoneType then
     log ERROR "Access token is not present in response, please check logs." ;;;
     raise (KeyError "access_token")
   else io_ret tt) ;;;
  (match _session with
   | None => emit EvCloseSession
   | Some _ => io_ret tt
   end) ;;;
  io_ret access_token.

(** The channels of the [command]s sent, in the order they were sent. *)
Definition sent (command : string) (evs : list event) : list string :=
  omap (fun e => match e with
                 | EvSend c channel =>
                     if String.eqb c command then Some channel else None
                 | _ => None
                 end) evs.

(** Answers of the two endpoints for the scenarios: a token, and for each
    streamer in turn one stream entry when live and none otherwise. *)
Definition token_ok : http_response :=
  Response 200 (Some (PyDict [ ("access_token", PyStr "tok");
                               ("expires_in", PyInt 5000);
                               ("token_type", PyStr "bearer") ])).

Definition streams (n : nat) : http_response :=
  Response 200 (Some (PyDict [ ("data", PyList (repeat (PyDict [("type", PyStr "live")]) n));
                               ("pagination", PyDict []) ])).

Definition answers (token : http_response) (live : list bool) : cycle_net :=
  CycleNet token (fun i => if nth i live false then streams 1 else streams 0).

(** The globals of a process that watches [channels] and has the given
    tracking sets. *)
Definition tracking (channels joined offline : list string) : globals :=
  Globals (sample_config (PyInt 30) channels)
          {[ "joined" := list_to_set joined; "offline" := list_to_set offline ]}.

(** Scenario A: nothing joined, alice live. *)
Definition scenario_A : globals := tracking ["alice"] [] ["alice"].

Definition scenario_A_net : cycle_net := answers token_ok [true].

(** Scenario B: alice and bob joined, only bob live. *)
Definition scenario_B : globals := tracking ["alice"; "bob"] ["alice"; "bob"] [].

Definition scenario_B_net : cycle_net := answers token_ok [false; true].

(** The two commands of the membership controller. *)
Definition is_join (e : event) : bool :=
  match e with EvSend c _ => String.eqb c "JOIN" | _ => false end.

Definition is_part (e : event) : bool :=
  match e with EvSend c _ => String.eqb c "PART" | _ => false end.

(** A cycle that both leaves and joins: alice was joined, bob is live. *)
Definition swap : globals := tracking ["alice"; "bob"] ["alice"] ["bob"].

Definition swap_net : cycle_net := answers token_ok [false; true].

(** How many cycles the events show to have begun. *)
Definition cycles_begun (evs : list event) : nat :=
  length (List.filter (fun e => match e with
                                | EvRule title => String.eqb title "Beginning Loop"
                                | _ => false
                                end) evs).

(** Scenario C: the token endpoint answers 500. *)
Definition token_500 : http_response :=
  Response 500 (Some (PyDict [("message", PyStr "internal server error")])).

(** No streamer is in both tracking sets. *)
Definition tracking_disjoint (g : globals) : Prop :=
  lists_get (STREAMER_LISTS g) "joined" ## lists_get (STREAMER_LISTS g) "offline".

(** The tracking sets after a cycle whose fetch gave [live]. *)
Definition replaced (lists : gmap string (gset string)) (live : gset string)
  : gmap string (gset string) :=
  <["offline" := lists_get lists "joined" ∖ live]> (<["joined" := live]> lists).

(** Alice and bob are configured and only alice is live on the first
    tick. *)
Definition only_alice_live : run unit :=
  main [answers token_ok [true; false]]
       (after (module_body (loaded (sample_config (PyInt 30) ["alice"; "bob"])))).

(** ** Logging in (lines 103-116)

    What the [CLIENT_CONNECT] handler hands to the client. *)
Inductive handshake :=
| HsSend (command : string) (keyword : string) (value : pyval)  (* bot.send(command, keyword=value) *)
| HsSendRaw (line : string)                                     (* bot.send_raw(line) *)
| HsRule (title : string).                                      (* console.rule(title) *)

(** [v.startswith(prefix)]: a method of [str]. *)
Definition py_startswith (v : pyval) (prefix : string) : result bool :=
  match v with
  | PyStr s => Return (String.prefix prefix s)
  | _ => Raise (AttributeError "startswith")
  end.

(** [connect] reads the configuration and changes nothing. *)
Definition connect (config : pydict) : result (list handshake) :=
  match dict_lookup "oauth_token" config with
  | None => Raise (KeyError "oauth_token")
  | Some oauth_token =>
      match py_startswith oauth_token "oauth:" with
      | Raise e => Raise e
      | Return prefixed =>
          match (if negb prefixed
                 then match str_add "oauth:" oauth_token with
                      | Return s => Return (PyStr s)
                      | Raise e => Raise e
                      end
                 else Return oauth_token) with
          | Raise e => Raise e
          | Return oauth_token =>
              match dict_lookup "bot_username" config with
              | None => Raise (KeyError "bot_username")
              | Some bot_username =>
                  Return [ HsSend "PASS" "password" oauth_token;
                           HsSend "NICK" "nick" bot_username;
                           HsSendRaw "CAP REQ :twitch.tv/membership";
                           HsRule "Logged In" ]
              end
          end
      end
  end.

(** * Vocabulary of the further properties *)

(** An action keeps the globals when it leaves [config] and
    [STREAMER_LISTS] as it found them. *)
Definition keeps_globals {A} (m : IO A) : Prop :=
  forall g, after (m g) = g.

(** The status query of the streamer at position [i], as
    [get_alive_streamers] builds it. *)
Definition status_task (access_token : pyval) (_session : option ClientSession)
    (net : cycle_net) (i : nat) (streamer : string) : IO (string * bool) :=
  client_id <- config_getitem "client_id" ;;
  retrieve_streaming_status client_id access_token streamer _session
    (stream_response net i).

(** The response carries a ["data"] list, and the length of that list. *)
Definition data_length (resp : http_response) : option nat :=
  match json_body resp with
  | Some (PyDict d) =>
      match dict_lookup "data" d with
      | Some (PyList l) => Some (length l)
      | _ => None
      end
  | _ => None
  end.

(** The channels the bot sits in after [evs], when it sat in [chans]
    before: a JOIN adds its channel and a PART removes it. *)
Definition occupy (chans : gset string) (e : event) : gset string :=
  match e with
  | EvSend command channel =>
      if String.eqb command "JOIN" then chans ∪ {[ channel ]}
      else if String.eqb command "PART" then chans ∖ {[ channel ]}
      else chans
  | _ => chans
  end.

Definition occupancy (chans : gset string) (evs : list event) : gset string :=
  foldl occupy chans evs.

(** The channel names of a set of streamers. *)
Definition channels_of (streamers : gset string) : gset string :=
  set_map (String.append "#") streamers.


(** The verdict of the status query at position [i]: live when the
    response carries a ["data"] list of one entry. *)
Definition live_at (net : cycle_net) (i : nat) : bool :=
  match data_length (stream_response net i) with
  | Some n => (n =? 1)%nat
  | None => false
  end.

(** [console.log] reads a string as rich markup, in which a tag opens with
    ["["], and raises on a closing tag that matches no open one.  The
    embedding's [log] does not parse its text.  A name without ["["] adds
    no tag to a line, and for such names the two agree; the statements
    that depend on a log line going through are made for them. *)
Definition markup_free (name : string) : bool :=
  negb (existsb (fun c => String.eqb (String c EmptyString) "[")
                (String.list_ascii_of_string name)).

(** * Properties *)

(** ** Running the monad *)

Lemma bind_raise {A B} (m : IO A) (k : A -> IO B) g e :
  outcome (m g) = Raise e ->
  io_bind m k g = Run (Raise e) (after (m g)) (emitted (m g)).
Proof. intros H. unfold io_bind. now rewrite H. Qed.

Lemma for_each_log {A} (xs : list A) (tag : log_tag) (f : A -> string) g :
  for_each xs (fun x => log tag (f x)) g =
    Run (Return tt) g (map (fun x => EvLog tag (f x)) xs).
Proof.
  induction xs as [|x xs IH]; [reflexivity|].
  cbn [for_each]. unfold io_bind at 1. cbn. now rewrite IH.
Qed.

(** ** Validation: what [validate_config] answers, pass by pass *)

Ltac run_validate g :=
  unfold validate_config, io_bind, read_config;
  cbn [outcome after emitted config];
  rewrite ?for_each_log; cbn [outcome after emitted config];
  fold (missing_keys (config g)).

Lemma validate_config_globals g : after (validate_config g) = g.
Proof.
  run_validate g.
  destruct (missing_keys (config g)); cbn; [|reflexivity].
  rewrite ?for_each_log.
  destruct (List.filter has_no_value (config g)); cbn; [|reflexivity].
  rewrite ?for_each_log.
  destruct (List.filter has_bad_type (config g)); reflexivity.
Qed.

Lemma validate_missing g :
  missing_keys (config g) <> [] ->
  outcome (validate_config g) = Raise (key_errors (missing_keys (config g))).
Proof.
  intros H. run_validate g.
  destruct (missing_keys (config g)); [congruence | reflexivity].
Qed.

Lemma validate_no_value g :
  missing_keys (config g) = [] ->
  List.filter has_no_value (config g) <> [] ->
  outcome (validate_config g) = Raise (type_errors (List.filter has_no_value (config g))).
Proof.
  intros H0 H. run_validate g. rewrite H0. cbn. rewrite ?for_each_log.
  destruct (List.filter has_no_value (config g)); [congruence | reflexivity].
Qed.

Lemma validate_bad_type g :
  missing_keys (config g) = [] ->
  List.filter has_no_value (config g) = [] ->
  List.filter has_bad_type (config g) <> [] ->
  outcome (validate_config g) = Raise (type_errors (List.filter has_bad_type (config g))).
Proof.
  intros H0 H1 H. run_validate g. rewrite H0. cbn. rewrite ?for_each_log.
  rewrite H1. cbn. rewrite ?for_each_log.
  destruct (List.filter has_bad_type (config g)); [congruence | reflexivity].
Qed.

Lemma validate_passes g :
  missing_keys (config g) = [] ->
  List.filter has_no_value (config g) = [] ->
  List.filter has_bad_type (config g) = [] ->
  outcome (validate_config g) = Return true.
Proof.
  intros H0 H1 H2. run_validate g. rewrite H0. cbn. rewrite ?for_each_log.
  rewrite H1. cbn. rewrite ?for_each_log. now rewrite H2.
Qed.

(** The answer depends on the configuration alone. *)
Lemma validate_config_only_config g l :
  outcome (validate_config (Globals (config g) l)) = outcome (validate_config g).
Proof.
  destruct (missing_keys (config g)) eqn:E0.
  2:{ rewrite !validate_missing; cbn [config]; congruence. }
  destruct (List.filter has_no_value (config g)) eqn:E1.
  2:{ rewrite !validate_no_value; cbn [config]; congruence. }
  destruct (List.filter has_bad_type (config g)) eqn:E2.
  2:{ rewrite !validate_bad_type; cbn [config]; congruence. }
  now rewrite !validate_passes by (cbn [config]; assumption).
Qed.

Lemma filter_nonempty {A} (p : A -> bool) (l : list A) x :
  In x l -> p x = true -> List.filter p l <> [].
Proof.
  intros Hin Hp E.
  assert (H : In x (List.filter p l)) by (apply filter_In; auto).
  rewrite E in H. destruct H.
Qed.

(** ** Actions that neither send a command nor touch the tracking sets *)

Create HintDb quiet.

Lemma quiet_ret {A} (a : A) : quiet (io_ret a).
Proof. intros g. cbn. auto. Qed.

Lemma quiet_raise {A} (e : exn) : quiet (@raise A e).
Proof. intros g. cbn. auto. Qed.

Lemma quiet_lift {A} (r : result A) : quiet (lift r).
Proof. intros g. cbn. auto. Qed.

Lemma quiet_read_config : quiet read_config.
Proof. intros g. cbn. auto. Qed.

Lemma quiet_write_config c : quiet (write_config c).
Proof. intros g. cbn. auto. Qed.

Lemma quiet_emit e : is_send e = false -> quiet (emit e).
Proof. intros H g. cbn. auto. Qed.

Lemma quiet_log tag about : quiet (log tag about).
Proof. now apply quiet_emit. Qed.

Lemma quiet_bind {A B} (m : IO A) (k : A -> IO B) :
  quiet m -> (forall a, quiet (k a)) -> quiet (io_bind m k).
Proof.
  intros Hm Hk g. unfold io_bind. destruct (Hm g) as [Hl He].
  destruct (outcome (m g)) as [a|e]; cbn; [|auto].
  destruct (Hk a (after (m g))) as [Hl' He']. split.
  - congruence.
  - apply Forall_app; auto.
Qed.

Lemma quiet_if {A} (b : bool) (m1 m2 : IO A) :
  quiet m1 -> quiet m2 -> quiet (if b then m1 else m2).
Proof. now destruct b. Qed.

#[local] Hint Resolve quiet_ret quiet_raise quiet_lift quiet_read_config
  quiet_write_config quiet_log quiet_if : quiet.
#[local] Hint Extern 1 (quiet (emit _)) => apply quiet_emit; reflexivity : quiet.
#[local] Hint Extern 2 (quiet (io_bind _ _)) => apply quiet_bind; [|intros] : quiet.

Ltac quiet_tac :=
  repeat match goal with
  | |- quiet (io_bind _ _) => apply quiet_bind; [|intros ?]
  | |- quiet (if _ then _ else _) => apply quiet_if
  | |- quiet (match ?x with _ => _ end) => destruct x
  | |- quiet _ => solve [auto with quiet]
  end.

Lemma quiet_config_getitem k : quiet (config_getitem k).
Proof. unfold config_getitem. quiet_tac. Qed.
#[local] Hint Resolve quiet_config_getitem : quiet.

Lemma quiet_gather_imap {A B} (f : nat -> A -> IO B) (l : list A) :
  (forall i x, quiet (f i x)) -> quiet (gather (imap f l)).
Proof.
  revert f. induction l as [|x l IH]; intros f Hf; cbn [imap gather].
  - auto with quiet.
  - apply quiet_bind; [apply Hf|]. intros a.
    apply quiet_bind; [|auto with quiet].
    apply IH. intros i y. apply Hf.
Qed.

Lemma quiet_retrieve_access_token cid cs s resp :
  quiet (retrieve_access_token cid cs s resp).
Proof. unfold retrieve_access_token. quiet_tac. Qed.

Lemma quiet_retrieve_streaming_status cid tok name s resp :
  quiet (retrieve_streaming_status cid tok name s resp).
Proof. unfold retrieve_streaming_status. quiet_tac. Qed.

#[local] Hint Resolve quiet_retrieve_access_token quiet_retrieve_streaming_status
  : quiet.

Lemma quiet_get_alive_streamers streamers s net :
  quiet (get_alive_streamers streamers s net).
Proof.
  unfold get_alive_streamers. quiet_tac.
  apply quiet_gather_imap. intros i x. quiet_tac.
Qed.

(** ** What a cycle sends *)

Lemma leave_channels_run channels g :
  leave_channels channels g = Run (Return true) g (leave_events channels).
Proof.
  unfold leave_channels.
  assert (H : for_each channels
                (fun channel => emit (EvSend "PART" ("#" ++ channel)) ;;; log LEAVE channel) g
              = Run (Return tt) g (leave_events channels)).
  { induction channels as [|c cs IH]; [reflexivity|].
    cbn [for_each]. unfold io_bind at 1. cbn. now rewrite IH. }
  unfold io_bind at 1. rewrite H. cbn. now rewrite app_nil_r.
Qed.

Lemma join_channels_run channels g :
  join_channels channels g = Run (Return true) g (join_events channels).
Proof.
  unfold join_channels.
  assert (H : for_each channels
                (fun channel => emit (EvSend "JOIN" ("#" ++ channel)) ;;; log JOIN channel) g
              = Run (Return tt) g (join_events channels)).
  { induction channels as [|c cs IH]; [reflexivity|].
    cbn [for_each]. unfold io_bind at 1. cbn. now rewrite IH. }
  unfold io_bind at 1. rewrite H. cbn. now rewrite app_nil_r.
Qed.

(** ** Stepping through a sequence of actions *)

Lemma prepend_prepend {A} evs1 evs2 (r : run A) :
  prepend evs1 (prepend evs2 r) = prepend (evs1 ++ evs2) r.
Proof. unfold prepend. cbn. now rewrite app_assoc. Qed.

Lemma bind_step {A B} (m : IO A) (k : A -> IO B) g a :
  outcome (m g) = Return a ->
  io_bind m k g = prepend (emitted (m g)) (k a (after (m g))).
Proof. intros H. unfold io_bind, prepend. now rewrite H. Qed.

Lemma bind_emit {B} e (k : unit -> IO B) g :
  io_bind (emit e) k g = prepend [e] (k tt g).
Proof. reflexivity. Qed.

Lemma bind_read_config {B} (k : pydict -> IO B) g :
  io_bind read_config k g = k (config g) g.
Proof. unfold io_bind. cbn. now destruct (k (config g) g). Qed.

Lemma bind_read_lists {B} (k : gmap string (gset string) -> IO B) g :
  io_bind read_lists k g = k (STREAMER_LISTS g) g.
Proof. unfold io_bind. cbn. now destruct (k (STREAMER_LISTS g) g). Qed.

Lemma bind_write_lists {B} l (k : unit -> IO B) g :
  io_bind (write_lists l) k g = k tt (Globals (config g) l).
Proof. unfold io_bind. cbn. now destruct (k tt _). Qed.

Lemma bind_lift_return {A B} (a : A) (k : A -> IO B) g :
  io_bind (lift (Return a)) k g = k a g.
Proof. unfold io_bind. cbn. now destruct (k a g). Qed.

Lemma bind_lift_raise {A B} e (k : A -> IO B) g :
  io_bind (lift (Raise e)) k g = Run (Raise e) g [].
Proof. reflexivity. Qed.

Lemma bind_ret {A B} (a : A) (k : A -> IO B) g :
  io_bind (io_ret a) k g = k a g.
Proof. unfold io_bind. cbn. now destruct (k a g). Qed.

Lemma bind_config_getitem {B} key (k : pyval -> IO B) g v :
  dict_lookup key (config g) = Some v ->
  io_bind (config_getitem key) k g = k v g.
Proof.
  intros H. unfold config_getitem. unfold io_bind at 1.
  rewrite bind_read_config, H. cbn. now destruct (k v g).
Qed.

Lemma bind_config_getitem_missing {B} key (k : pyval -> IO B) g :
  dict_lookup key (config g) = None ->
  io_bind (config_getitem key) k g = Run (Raise (KeyError key)) g [].
Proof.
  intros H. unfold config_getitem. unfold io_bind at 1.
  now rewrite bind_read_config, H.
Qed.

Lemma quiet_sleep_step : quiet sleep_step.
Proof. unfold sleep_step. quiet_tac. Qed.

Lemma cycle_fetched session net g channels alive :
  dict_lookup "channels" (config g) = Some channels ->
  outcome (get_alive_streamers channels (Some session) net g) = Return alive ->
  let r := get_alive_streamers channels (Some session) net g in
  let live : gset string := list_to_set alive in
  let joined := lists_get (STREAMER_LISTS g) "joined" in
  cycle session net g =
    prepend (cycle_events (emitted r) joined live)
      (sleep_step
         (Globals (config (after r))
            (<["offline" := joined ∖ live]> (<["joined" := live]> (STREAMER_LISTS g))))).
Proof.
  intros Hc Hf r live joined.
  destruct (quiet_get_alive_streamers channels (Some session) net g) as [Hl _].
  fold r in Hl, Hf.
  unfold cycle, rule, log.
  rewrite bind_emit, (bind_config_getitem _ _ _ _ Hc).
  rewrite (bind_step _ _ _ _ Hf). fold r.
  rewrite !bind_emit, bind_read_lists, bind_emit, !bind_read_lists, bind_write_lists.
  rewrite bind_read_lists, bind_write_lists.
  cbn [STREAMER_LISTS config].
  rewrite (bind_step _ _ _ true) by now rewrite leave_channels_run.
  rewrite leave_channels_run. cbn [emitted after].
  rewrite (bind_step _ _ _ true) by now rewrite join_channels_run.
  rewrite join_channels_run. cbn [emitted after].
  rewrite bind_emit, !prepend_prepend. rewrite Hl.
  fold sleep_step. fold joined. unfold cycle_events.
  f_equal. cbn [app]. f_equal. rewrite <- !app_assoc. reflexivity.
Qed.

Lemma cycle_fetch_failed session net g channels e :
  dict_lookup "channels" (config g) = Some channels ->
  outcome (get_alive_streamers channels (Some session) net g) = Raise e ->
  let r := get_alive_streamers channels (Some session) net g in
  cycle session net g = Run (Raise e) (after r) (EvRule "Beginning Loop" :: emitted r).
Proof.
  intros Hc Hf r. unfold cycle, rule.
  rewrite bind_emit, (bind_config_getitem _ _ _ _ Hc).
  unfold io_bind at 1. fold r. unfold r at 1. now rewrite Hf.
Qed.

Lemma cycle_no_channels session net g :
  dict_lookup "channels" (config g) = None ->
  cycle session net g = Run (Raise (KeyError "channels")) g [EvRule "Beginning Loop"].
Proof.
  intros Hc. unfold cycle, rule.
  now rewrite bind_emit, (bind_config_getitem_missing _ _ _ Hc).
Qed.

(** ** Validation claims *)

Lemma filter_nil_iff {A} (p : A -> bool) (l : list A) :
  List.filter p l = [] <-> forall x, In x l -> p x = false.
Proof.
  split.
  - intros E x Hin. destruct (p x) eqn:Hp; [|reflexivity].
    now destruct (filter_nonempty p l x Hin Hp).
  - intros H. induction l as [|a l IH]; [reflexivity|]. cbn.
    rewrite (H a) by now left. apply IH. intros x Hx. apply H. now right.
Qed.

Lemma validate_outcome_congr g g' :
  missing_keys (config g) = missing_keys (config g') ->
  List.filter has_no_value (config g) = List.filter has_no_value (config g') ->
  List.filter has_bad_type (config g) = List.filter has_bad_type (config g') ->
  outcome (validate_config g) = outcome (validate_config g').
Proof.
  intros H0 H1 H2.
  destruct (missing_keys (config g')) eqn:E0.
  2:{ rewrite !validate_missing; congruence. }
  destruct (List.filter has_no_value (config g')) eqn:E1.
  2:{ rewrite !validate_no_value; congruence. }
  destruct (List.filter has_bad_type (config g')) eqn:E2.
  2:{ rewrite !validate_bad_type; congruence. }
  rewrite !validate_passes; congruence.
Qed.

Lemma in_dict_keys {V} k (d : list (string * V)) :
  In k (dict_keys d) -> exists v, In (k, v) d.
Proof.
  unfold dict_keys. intros H. apply in_map_iff in H as [[k' v] [E Hin]].
  cbn in E. subst. now exists v.
Qed.

(** C10: a configuration that has a key outside the seven required ones is
    rejected.  When its required keys are all there and no value is empty,
    it is the type pass that raises, and the unknown key is among the
    errors it lists, whatever the other values are. *)
Theorem unknown_key_rejected g k :
  In k (dict_keys (config g)) ->
  dict_lookup k required_keys = None ->
  (exists errs, outcome (validate_config g) = Raise (ExceptionOf errs)) /\
  (missing_keys (config g) = [] ->
   List.filter has_no_value (config g) = [] ->
   outcome (validate_config g) =
     Raise (type_errors (List.filter has_bad_type (config g))) /\
   In (TypeError k)
      (map (fun kv => TypeError kv.1) (List.filter has_bad_type (config g)))).
Proof.
  intros Hk Hreq. apply in_dict_keys in Hk as [v Hv].
  assert (Hbad : has_bad_type (k, v) = true).
  { unfold has_bad_type. cbn [fst]. now rewrite Hreq. }
  assert (Hne : List.filter has_bad_type (config g) <> [])
    by (eapply filter_nonempty; eauto).
  split.
  - destruct (missing_keys (config g)) eqn:E0.
    2:{ rewrite validate_missing by congruence. now eexists. }
    destruct (List.filter has_no_value (config g)) eqn:E1.
    2:{ rewrite validate_no_value by congruence. now eexists. }
    rewrite validate_bad_type by assumption. now eexists.
  - intros E0 E1. split; [now apply validate_bad_type|].
    apply in_map_iff. exists (k, v). split; [reflexivity|].
    apply filter_In. auto.
Qed.

Lemma unknown_key_rejected_witness :
  exists errs,
    outcome (validate_config
               (loaded (("colour", PyStr "red") :: sample_config (PyInt 30) ["alice"])))
    = Raise (ExceptionOf errs).
Proof.
  apply (unknown_key_rejected
           (loaded (("colour", PyStr "red") :: sample_config (PyInt 30) ["alice"]))
           "colour").
  - cbn. now left.
  - reflexivity.
Defined.

Lemma dict_contains_value {V} k w (v v' : V) pre post :
  dict_contains k (pre ++ (w, v) :: post) = dict_contains k (pre ++ (w, v') :: post).
Proof.
  unfold dict_contains.
  induction pre as [|[k0 v0] pre IH]; cbn.
  - now destruct (String.eqb k w).
  - now destruct (String.eqb k k0).
Qed.

Lemma missing_keys_value w (v v' : pyval) pre post :
  missing_keys (pre ++ (w, v) :: post) = missing_keys (pre ++ (w, v') :: post).
Proof.
  unfold missing_keys. apply filter_ext. intros k.
  now rewrite (dict_contains_value k w v v').
Qed.

Lemma filter_skip {A} (p : A -> bool) pre x post :
  p x = false -> List.filter p (pre ++ x :: post) = List.filter p (pre ++ post).
Proof. intros H. rewrite !List.filter_app. cbn. now rewrite H. Qed.

Lemma nonzero_wait_time_has_value z :
  z <> 0 -> has_no_value ("wait_time", PyInt z) = false.
Proof.
  intros H. unfold has_no_value. cbn.
  destruct (Z.eqb_spec z 0); [contradiction | reflexivity].
Qed.

(** C8, as the code has it: a wait time of zero is rejected, by the pass
    that rejects empty values; no pass looks at the sign or the size of the
    integer, so validation answers the same for all non-zero wait times and
    accepts a configuration that is otherwise in order, negative wait times
    included. *)
Theorem wait_time_only_zero_rejected :
  (forall g, In ("wait_time", PyInt 0) (config g) ->
     exists errs, outcome (validate_config g) = Raise (ExceptionOf errs)) /\
  (forall pre post lists z z', z <> 0 -> z' <> 0 ->
     outcome (validate_config (Globals (pre ++ ("wait_time", PyInt z) :: post) lists)) =
     outcome (validate_config (Globals (pre ++ ("wait_time", PyInt z') :: post) lists))) /\
  (forall z c channels, z <> 0 ->
     outcome (validate_config (loaded (sample_config (PyInt z) (c :: channels)))) =
     Return true).
Proof.
  split; [|split].
  - intros g Hin.
    assert (Hne : List.filter has_no_value (config g) <> [])
      by (eapply filter_nonempty; [exact Hin | reflexivity]).
    destruct (missing_keys (config g)) eqn:E0.
    + rewrite validate_no_value by assumption. now eexists.
    + rewrite validate_missing by congruence. now eexists.
  - intros pre post lists z z' Hz Hz'. apply validate_outcome_congr; cbn [config].
    + apply missing_keys_value.
    + rewrite !filter_skip; auto using nonzero_wait_time_has_value.
    + rewrite !filter_skip; auto.
  - intros z c channels Hz. apply validate_passes; cbn [config loaded].
    + reflexivity.
    + unfold sample_config. cbn.
      now rewrite nonzero_wait_time_has_value.
    + reflexivity.
Qed.

Lemma wait_time_only_zero_rejected_witness :
  (exists errs,
     outcome (validate_config (loaded (sample_config (PyInt 0) ["alice"]))) =
     Raise (ExceptionOf errs)) /\
  outcome (validate_config (loaded (sample_config (PyInt 86400) ["alice"]))) =
  Return true.
Proof.
  split.
  - apply (proj1 wait_time_only_zero_rejected (loaded (sample_config (PyInt 0) ["alice"]))).
    cbn. tauto.
  - apply (proj2 (proj2 wait_time_only_zero_rejected) 86400 "alice" []). lia.
Defined.

(** C8 as stated fails: a negative wait time passes validation. *)
Lemma negative_wait_time_accepted :
  outcome (validate_config (loaded (sample_config (PyInt (-5)) ["alice"]))) =
  Return true.
Proof. reflexivity. Qed.




Lemma missing_keys_nil_iff c :
  missing_keys c = [] <->
  forall k, In k (dict_keys required_keys) -> dict_contains k c = true.
Proof.
  unfold missing_keys. rewrite filter_nil_iff.
  split; intros H k Hk; specialize (H k Hk); now destruct (dict_contains k c).
Qed.





(** ** The live-status query *)

Lemma response_json_some resp body :
  json_body resp = Some body -> response_json resp = Return body.
Proof. intros H. unfold response_json. now rewrite H. Qed.

Lemma status_of_list cid t name s resp d l g :
  json_body resp = Some (PyDict d) ->
  dict_lookup "data" d = Some (PyList l) ->
  outcome (retrieve_streaming_status cid (PyStr t) name s resp g) =
    Return (name, (length l =? 1)%nat).
Proof.
  intros Hbody Hdata.
  unfold retrieve_streaming_status. cbn [str_add].
  rewrite bind_lift_return, bind_emit, (response_json_some _ _ Hbody), bind_lift_return.
  cbn [py_method_get py_getitem]. unfold py_get. rewrite Hdata.
  rewrite bind_lift_return. cbn [type pytype_is negb].
  rewrite bind_ret, bind_lift_return. cbn [py_len].
  now rewrite bind_lift_return.
Qed.

Lemma status_of_non_list_object cid t name s resp d g :
  json_body resp = Some (PyDict d) ->
  (forall l, py_get d "data" <> PyList l) ->
  outcome (retrieve_streaming_status cid (PyStr t) name s resp g) =
    Raise (KeyError "data").
Proof.
  intros Hbody Hdata. unfold retrieve_streaming_status. cbn [str_add].
  rewrite bind_lift_return, bind_emit, (response_json_some _ _ Hbody), bind_lift_return.
  cbn [py_method_get]. rewrite bind_lift_return.
  destruct (py_get d "data") eqn:Ed;
    try (now rewrite (bind_raise _ _ _ (KeyError "data")) by reflexivity).
  now destruct (Hdata elts).
Qed.

Lemma status_of_non_object cid t name s resp body g :
  json_body resp = Some body ->
  (forall d, body <> PyDict d) ->
  outcome (retrieve_streaming_status cid (PyStr t) name s resp g) =
    Raise (AttributeError "get").
Proof.
  intros Hbody Hnot. unfold retrieve_streaming_status. cbn [str_add].
  rewrite bind_lift_return, bind_emit, (response_json_some _ _ Hbody), bind_lift_return.
  destruct body; try (cbn [py_method_get]; now rewrite bind_lift_raise).
  now destruct (Hnot items).
Qed.

Lemma status_of_non_json cid t name s resp g :
  json_body resp = None ->
  outcome (retrieve_streaming_status cid (PyStr t) name s resp g) =
    Raise ContentTypeError.
Proof.
  intros Hbody. unfold retrieve_streaming_status, response_json. cbn [str_add].
  rewrite bind_lift_return, bind_emit, Hbody. now rewrite bind_lift_raise.
Qed.

(** C5: the query answers that the streamer is live exactly when the
    response is a JSON object whose ["data"] is a list of one entry.  When
    ["data"] is a list the query answers, and an empty list and a list of
    two or more both give not live. *)
Theorem live_iff_exactly_one_entry cid t name s resp g :
  (outcome (retrieve_streaming_status cid (PyStr t) name s resp g) =
     Return (name, true) <->
   exists d l, json_body resp = Some (PyDict d) /\
               dict_lookup "data" d = Some (PyList l) /\
               length l = 1%nat) /\
  (forall d l,
     json_body resp = Some (PyDict d) ->
     dict_lookup "data" d = Some (PyList l) ->
     outcome (retrieve_streaming_status cid (PyStr t) name s resp g) =
       Return (name, (length l =? 1)%nat) /\
     (length l = 0%nat \/ (2 <= length l)%nat -> (length l =? 1)%nat = false)).
Proof.
  split.
  - split.
    + intros H. destruct (json_body resp) as [body|] eqn:Hbody.
      2:{ rewrite status_of_non_json in H by assumption. discriminate. }
      destruct body as [| | | | | |d];
        try (rewrite (status_of_non_object _ _ _ _ _ _ _ Hbody) in H by discriminate;
             discriminate).
      destruct (dict_lookup "data" d) as [v|] eqn:Hdata.
      2:{ rewrite (status_of_non_list_object _ _ _ _ _ _ _ Hbody) in H;
            [discriminate|]. intros l. unfold py_get. now rewrite Hdata. }
      destruct v as [| | | | |l|];
        try (rewrite (status_of_non_list_object _ _ _ _ _ _ _ Hbody) in H;
             [discriminate | intros l; unfold py_get; rewrite Hdata; discriminate]).
      rewrite (status_of_list _ _ _ _ _ _ _ _ Hbody Hdata) in H.
      injection H as H. apply Nat.eqb_eq in H. now exists d, l.
    + intros (d & l & Hbody & Hdata & Hlen).
      rewrite (status_of_list _ _ _ _ _ _ _ _ Hbody Hdata). now rewrite Hlen.
  - intros d l Hbody Hdata. split; [now apply (status_of_list _ _ _ _ _ d)|].
    intros [H|H]; apply Nat.eqb_neq; lia.
Qed.

Lemma live_iff_exactly_one_entry_witness :
  outcome (retrieve_streaming_status (PyStr "id") (PyStr "tok") "alice" None
             (Response 200 (Some (PyDict [("data", PyList [PyDict []; PyDict []])])))
             (loaded [])) = Return ("alice", false).
Proof.
  refine (proj1 (proj2 (live_iff_exactly_one_entry (PyStr "id") "tok" "alice" None
                          (Response 200 (Some (PyDict [("data", PyList [PyDict []; PyDict []])])))
                          (loaded []))
                   [("data", PyList [PyDict []; PyDict []])] [PyDict []; PyDict []] _ _));
    reflexivity.
Defined.

(** C6: when the ["data"] field of the response is not a list the query
    returns no verdict: it raises, and for a JSON object it raises
    [KeyError("data")]. *)
Theorem data_not_a_list_fails cid t name s resp body g :
  json_body resp = Some body ->
  (forall l, py_method_get body "data" <> Return (PyList l)) ->
  (exists e, outcome (retrieve_streaming_status cid (PyStr t) name s resp g) = Raise e) /\
  (forall d, body = PyDict d ->
     outcome (retrieve_streaming_status cid (PyStr t) name s resp g) =
       Raise (KeyError "data")).
Proof.
  intros Hbody Hdata.
  assert (E : forall d, body = PyDict d ->
              outcome (retrieve_streaming_status cid (PyStr t) name s resp g) =
                Raise (KeyError "data")).
  { intros d ->. apply (status_of_non_list_object _ _ _ _ _ d); [assumption|].
    intros l Hl. apply (Hdata l). cbn. now rewrite Hl. }
  split; [|exact E].
  destruct body; try (rewrite (E _ eq_refl); now eexists).
  all: rewrite (status_of_non_object _ _ _ _ _ _ _ Hbody) by discriminate; now eexists.
Qed.

(** Scenario D of the specification. *)
Lemma data_not_a_list_fails_witness :
  outcome (retrieve_streaming_status (PyStr "id") (PyStr "tok") "alice" None
             (Response 200 (Some (PyDict [("data", PyStr "not-a-list")])))
             (loaded [])) = Raise (KeyError "data").
Proof.
  refine (proj2 (data_not_a_list_fails (PyStr "id") "tok" "alice" None
                   (Response 200 (Some (PyDict [("data", PyStr "not-a-list")])))
                   (PyDict [("data", PyStr "not-a-list")]) (loaded []) _ _) _ _).
  - reflexivity.
  - intros l. discriminate.
  - reflexivity.
Defined.

(** ** The token request *)



Lemma token_status_other cid cs s body g st :
  st <> 500 ->
  retrieve_access_token cid cs s (Response st (Some body)) g =
    prepend
      (EvPost "https://id.twitch.tv/oauth2/token"
         [("client_id", cid); ("client_secret", cs);
          ("grant_type", PyStr "client_credentials")]
       :: (if String.prefix "2" (pretty st) then [] else [token_warning]))
      (read_token body s g).
Proof.
  intros Hst. unfold retrieve_access_token.
  rewrite bind_emit. cbn [response_json json_body]. rewrite bind_lift_return.
  cbn [status]. destruct (Z.eqb_spec st 500) as [|_]; [contradiction|].
  fold (read_token body s).
  destruct (String.prefix "2" (pretty st)); cbn [negb].
  - now rewrite bind_ret.
  - unfold log. fold token_warning. now rewrite bind_emit, prepend_prepend.
Qed.


Lemma get_alive_token_failed streamers s net g cid cs e :
  dict_lookup "client_id" (config g) = Some cid ->
  dict_lookup "client_secret" (config g) = Some cs ->
  outcome (retrieve_access_token cid cs s (token_response net) g) = Raise e ->
  outcome (get_alive_streamers streamers s net g) = Raise e.
Proof.
  intros Hid Hsecret H. unfold get_alive_streamers.
  rewrite (bind_config_getitem _ _ _ _ Hid), (bind_config_getitem _ _ _ _ Hsecret).
  now rewrite (bind_raise _ _ _ _ H).
Qed.


Lemma read_token_absent d s g :
  py_get d "access_token" = PyNone ->
  read_token (PyDict d) s g =
    Run (Raise (KeyError "access_token")) g
        [EvLog ERROR "Access token is not present in response, please check logs."].
Proof.
  intros Hv. unfold read_token. cbn [py_method_get]. rewrite Hv.
  rewrite bind_lift_return. reflexivity.
Qed.





(** ** The reconciliation cycle *)

Lemma sent_app command evs1 evs2 :
  sent command (evs1 ++ evs2) = (sent command evs1 ++ sent command evs2)%list.
Proof. apply omap_app. Qed.

Lemma sent_quiet command evs :
  Forall (fun e => is_send e = false) evs -> sent command evs = [].
Proof.
  induction 1 as [|e evs He _ IH]; [reflexivity|].
  cbn. destruct e; try discriminate; exact IH.
Qed.

Lemma sent_cons_send command c channel evs :
  sent command (EvSend c channel :: evs) =
    if String.eqb c command then channel :: sent command evs else sent command evs.
Proof. unfold sent. simpl. now destruct (String.eqb c command). Qed.

Lemma sent_cons_log command tag about evs :
  sent command (EvLog tag about :: evs) = sent command evs.
Proof. reflexivity. Qed.

Lemma sent_leave_events command channels :
  sent command (leave_events channels) =
    if String.eqb "PART" command then map (String.append "#") channels else [].
Proof.
  induction channels as [|c cs IH].
  - now destruct (String.eqb "PART" command).
  - change (leave_events (c :: cs))
      with (EvSend "PART" ("#" ++ c) :: EvLog LEAVE c :: leave_events cs).
    rewrite sent_cons_send, sent_cons_log, IH.
    now destruct (String.eqb "PART" command).
Qed.

Lemma sent_join_events command channels :
  sent command (join_events channels) =
    if String.eqb "JOIN" command then map (String.append "#") channels else [].
Proof.
  induction channels as [|c cs IH].
  - now destruct (String.eqb "JOIN" command).
  - change (join_events (c :: cs))
      with (EvSend "JOIN" ("#" ++ c) :: EvLog JOIN c :: join_events cs).
    rewrite sent_cons_send, sent_cons_log, IH.
    now destruct (String.eqb "JOIN" command).
Qed.

Lemma sent_cycle command session net g channels alive :
  dict_lookup "channels" (config g) = Some channels ->
  outcome (get_alive_streamers channels (Some session) net g) = Return alive ->
  let live : gset string := list_to_set alive in
  let joined := lists_get (STREAMER_LISTS g) "joined" in
  sent command (emitted (cycle session net g)) =
    (sent command (leave_events (elements (joined ∖ live))) ++
     sent command (join_events (elements (live ∖ joined))))%list.
Proof.
  intros Hc Hf live joined.
  rewrite (cycle_fetched _ _ _ _ _ Hc Hf). cbn [prepend emitted].
  unfold cycle_events. fold live joined.
  change (EvRule "Beginning Loop" :: ?l) with ([EvRule "Beginning Loop"] ++ l)%list.
  rewrite !sent_app.
  rewrite (sent_quiet _ (emitted (get_alive_streamers _ _ _ _)))
    by apply quiet_get_alive_streamers.
  rewrite (sent_quiet _ (emitted (sleep_step _))) by apply quiet_sleep_step.
  change (sent command [EvRule "Beginning Loop"]) with (@nil string).
  change (sent command [EvRule "Sleeping"]) with (@nil string).
  change (sent command [EvLog PLAIN "config"; _; _]) with (@nil string).
  cbn [app]. now rewrite !app_nil_r.
Qed.



(** ** Leaving comes before joining *)

Lemma quiet_no_join evs :
  Forall (fun e => is_send e = false) evs -> Forall (fun e => is_join e = false) evs.
Proof.
  intros H. eapply Forall_impl; [exact H|].
  intros [] E; (discriminate E || reflexivity).
Qed.

Lemma quiet_no_part evs :
  Forall (fun e => is_send e = false) evs -> Forall (fun e => is_part e = false) evs.
Proof.
  intros H. eapply Forall_impl; [exact H|].
  intros [] E; (discriminate E || reflexivity).
Qed.

Lemma leave_events_no_join channels :
  Forall (fun e => is_join e = false) (leave_events channels).
Proof. induction channels; repeat constructor; assumption. Qed.

Lemma join_events_no_part channels :
  Forall (fun e => is_part e = false) (join_events channels).
Proof. induction channels; repeat constructor; assumption. Qed.

Lemma parts_then_joins (X Y : list event) i j cj cp :
  Forall (fun e => is_join e = false) X ->
  Forall (fun e => is_part e = false) Y ->
  (X ++ Y)%list !! i = Some (EvSend "JOIN" cj) ->
  (X ++ Y)%list !! j = Some (EvSend "PART" cp) ->
  (j < i)%nat.
Proof.
  intros HX HY Hi Hj.
  apply lookup_app_Some in Hi as [Hi|[Hlen _]].
  { now pose proof (Forall_lookup_1 _ _ _ _ HX Hi). }
  apply lookup_app_Some in Hj as [Hj|[_ Hj]].
  - apply lookup_lt_Some in Hj. lia.
  - now pose proof (Forall_lookup_1 _ _ _ _ HY Hj).
Qed.

Lemma cycle_parts_then_joins session net g :
  exists X Y, emitted (cycle session net g) = (X ++ Y)%list /\
              Forall (fun e => is_join e = false) X /\
              Forall (fun e => is_part e = false) Y.
Proof.
  destruct (dict_lookup "channels" (config g)) as [channels|] eqn:Hc.
  2:{ rewrite (cycle_no_channels _ _ _ Hc). exists [EvRule "Beginning Loop"], [].
      repeat constructor. }
  pose proof (quiet_get_alive_streamers channels (Some session) net g) as [_ Hq].
  destruct (outcome (get_alive_streamers channels (Some session) net g))
    as [alive|e] eqn:Hf.
  - rewrite (cycle_fetched _ _ _ _ _ Hc Hf). cbn [prepend emitted].
    unfold cycle_events.
    set (live := list_to_set alive : gset string).
    set (joined := lists_get (STREAMER_LISTS g) "joined").
    set (fetch := emitted (get_alive_streamers channels (Some session) net g)) in *.
    set (rest := emitted (sleep_step _)).
    assert (Hrest : Forall (fun e => is_send e = false) rest)
      by apply quiet_sleep_step.
    exists (EvRule "Beginning Loop" :: fetch ++
            [EvLog PLAIN "config"; EvLog LOG "Alive Streamers Retrieved";
             EvLog LOG "Offline Streamers Retrieved"] ++
            leave_events (elements (joined ∖ live)))%list,
           (join_events (elements (live ∖ joined)) ++ [EvRule "Sleeping"] ++ rest)%list.
    split; [|split].
    + repeat (rewrite <- app_assoc || rewrite <- app_comm_cons). reflexivity.
    + constructor; [reflexivity|].
      apply Forall_app; split; [now apply quiet_no_join|].
      apply Forall_app; split; [repeat constructor | apply leave_events_no_join].
    + apply Forall_app; split; [apply join_events_no_part|].
      apply Forall_app; split; [repeat constructor | now apply quiet_no_part].
  - rewrite (cycle_fetch_failed _ _ _ _ _ Hc Hf). cbn [emitted].
    eexists _, []. rewrite app_nil_r. split; [reflexivity|].
    split; [|constructor].
    constructor; [reflexivity | now apply quiet_no_join].
Qed.

(** C9: in the events of a cycle, every PART command stands before every
    JOIN command. *)
Theorem leave_before_join session net g i j cj cp :
  emitted (cycle session net g) !! i = Some (EvSend "JOIN" cj) ->
  emitted (cycle session net g) !! j = Some (EvSend "PART" cp) ->
  (j < i)%nat.
Proof.
  destruct (cycle_parts_then_joins session net g) as (X & Y & -> & HX & HY).
  now apply parts_then_joins.
Qed.

Lemma leave_before_join_witness :
  emitted (cycle (Session 0) swap_net swap) !! 9%nat = Some (EvSend "JOIN" "#bob") /\
  emitted (cycle (Session 0) swap_net swap) !! 7%nat = Some (EvSend "PART" "#alice") /\
  (7 < 9)%nat.
Proof.
  assert (Hi : emitted (cycle (Session 0) swap_net swap) !! 9%nat =
               Some (EvSend "JOIN" "#bob")) by (vm_compute; reflexivity).
  assert (Hj : emitted (cycle (Session 0) swap_net swap) !! 7%nat =
               Some (EvSend "PART" "#alice")) by (vm_compute; reflexivity).
  exact (conj Hi (conj Hj (leave_before_join _ _ _ _ _ _ _ Hi Hj))).
Defined.

(** ** A cycle that fails *)

(** C3, as the code has it: when the fetch of a cycle fails, by the token
    request or by a status query, the cycle raises that error before it
    touches the tracking sets or sends anything, and [main] has no handler
    for it: the loop ends there with the error, whatever the later ticks
    would have answered. *)
Theorem failed_fetch_ends_loop session net rest g channels e :
  dict_lookup "channels" (config g) = Some channels ->
  outcome (get_alive_streamers channels (Some session) net g) = Raise e ->
  let fetch := get_alive_streamers channels (Some session) net g in
  outcome (cycle session net g) = Raise e /\
  main_loop session (net :: rest) g =
    Run (Raise e) (after fetch) (EvRule "Beginning Loop" :: emitted fetch) /\
  STREAMER_LISTS (after (main_loop session (net :: rest) g)) = STREAMER_LISTS g /\
  Forall (fun ev => is_send ev = false) (emitted (main_loop session (net :: rest) g)).
Proof.
  intros Hc Hf fetch.
  pose proof (cycle_fetch_failed _ _ _ _ _ Hc Hf) as Hcycle. cbn zeta in Hcycle.
  fold fetch in Hcycle.
  assert (Hloop : main_loop session (net :: rest) g =
                  Run (Raise e) (after fetch) (EvRule "Beginning Loop" :: emitted fetch)).
  { cbn [main_loop]. rewrite (bind_raise _ _ _ e); now rewrite Hcycle. }
  destruct (quiet_get_alive_streamers channels (Some session) net g) as [Hl Hq].
  fold fetch in Hl, Hq.
  rewrite Hloop, Hcycle. cbn [outcome after emitted].
  repeat split; auto.
Qed.

(** Scenario C of the specification, on the cycle. *)
Lemma failed_fetch_ends_loop_witness :
  outcome (cycle (Session 0) (answers token_500 [true]) scenario_A) =
    Raise token_failure /\
  main_loop (Session 0) [answers token_500 [true]; scenario_A_net] scenario_A =
    Run (Raise token_failure)
        (after (get_alive_streamers (PyList [PyStr "alice"]) (Some (Session 0))
                  (answers token_500 [true]) scenario_A))
        (EvRule "Beginning Loop" ::
         emitted (get_alive_streamers (PyList [PyStr "alice"]) (Some (Session 0))
                    (answers token_500 [true]) scenario_A)) /\
  STREAMER_LISTS
    (after (main_loop (Session 0) [answers token_500 [true]; scenario_A_net] scenario_A)) =
    STREAMER_LISTS scenario_A /\
  Forall (fun ev => is_send ev = false)
    (emitted (main_loop (Session 0) [answers token_500 [true]; scenario_A_net] scenario_A)).
Proof.
  apply (failed_fetch_ends_loop (Session 0) (answers token_500 [true]) [scenario_A_net]
           scenario_A (PyList [PyStr "alice"]) token_failure);
    vm_compute; reflexivity.
Defined.

(** C3 as stated fails: the loop does not retry.  The token endpoint fails
    on the first tick and answers on the second, at which alice is live;
    the second cycle never begins and alice is never joined. *)
Lemma no_retry_after_failed_cycle :
  outcome (main [answers token_500 [true]; scenario_A_net] scenario_A) =
    Raise token_failure /\
  cycles_begun (emitted (main [answers token_500 [true]; scenario_A_net] scenario_A)) =
    1%nat /\
  sent "JOIN" (emitted (main [answers token_500 [true]; scenario_A_net] scenario_A)) = [] /\
  sent "JOIN" (emitted (main [scenario_A_net] scenario_A)) = ["#alice"].
Proof. repeat split; vm_compute; reflexivity. Qed.

(** ** The two tracking sets *)

Lemma replaced_joined lists live : lists_get (replaced lists live) "joined" = live.
Proof.
  unfold lists_get, replaced.
  rewrite lookup_insert_ne by discriminate. now rewrite lookup_insert_eq.
Qed.

Lemma replaced_offline lists live :
  lists_get (replaced lists live) "offline" = lists_get lists "joined" ∖ live.
Proof. unfold lists_get at 1, replaced. now rewrite lookup_insert_eq. Qed.

Lemma after_bind {A B} (m : IO A) (k : A -> IO B) g :
  after (io_bind m k g) =
    match outcome (m g) with
    | Return a => after (k a (after (m g)))
    | Raise _ => after (m g)
    end.
Proof. unfold io_bind. now destruct (outcome (m g)). Qed.

Lemma cycle_replaces_both session net g :
  STREAMER_LISTS (after (cycle session net g)) = STREAMER_LISTS g \/
  exists live, STREAMER_LISTS (after (cycle session net g)) =
               replaced (STREAMER_LISTS g) live.
Proof.
  destruct (dict_lookup "channels" (config g)) as [channels|] eqn:Hc.
  2:{ left. now rewrite (cycle_no_channels _ _ _ Hc). }
  destruct (outcome (get_alive_streamers channels (Some session) net g))
    as [alive|e] eqn:Hf.
  - right. exists (list_to_set alive).
    rewrite (cycle_fetched _ _ _ _ _ Hc Hf). cbn [prepend after].
    match goal with |- context [sleep_step ?g2] =>
      destruct (quiet_sleep_step g2) as [-> _]
    end.
    reflexivity.
  - left. rewrite (cycle_fetch_failed _ _ _ _ _ Hc Hf). cbn [after].
    apply quiet_get_alive_streamers.
Qed.

Lemma cycle_disjoint session net g :
  tracking_disjoint g -> tracking_disjoint (after (cycle session net g)).
Proof.
  unfold tracking_disjoint. intros H.
  destruct (cycle_replaces_both session net g) as [->|[live ->]]; [exact H|].
  rewrite replaced_joined, replaced_offline.
  now apply disjoint_difference_r1.
Qed.

Lemma main_loop_disjoint session ticks g :
  tracking_disjoint g -> tracking_disjoint (after (main_loop session ticks g)).
Proof.
  revert g. induction ticks as [|net ticks IH]; intros g H; [exact H|].
  cbn [main_loop]. rewrite after_bind.
  destruct (outcome (cycle session net g)); [apply IH|]; now apply cycle_disjoint.
Qed.

Lemma main_after ticks g :
  after (main ticks g) = after (main_loop (Session 0) ticks g).
Proof. unfold main, prepare_socket, log. now rewrite !bind_emit. Qed.

Lemma module_body_lists file :
  outcome (module_body (loaded file)) = Return tt ->
  exists configured,
    py_set (py_get file "channels") = Return configured /\
    STREAMER_LISTS (after (module_body (loaded file))) =
      {[ "joined" := ∅; "offline" := configured ]}.
Proof.
  unfold module_body, log. rewrite bind_read_config, bind_emit.
  change (config (loaded file)) with file.
  destruct (py_set (py_get file "channels")) as [configured|e0].
  2:{ rewrite bind_lift_raise. discriminate. }
  rewrite bind_lift_return, bind_write_lists. intros H.
  exists configured. split; [reflexivity|].
  cbn [prepend after outcome] in *. rewrite after_bind in *.
  match goal with |- context [validate_config ?g1] =>
    destruct (outcome (validate_config g1)) eqn:Hv;
    [ now rewrite validate_config_globals
    | rewrite (bind_raise _ _ _ _ Hv) in H; discriminate H ]
  end.
Qed.

Lemma cycle_lists_fetched session net g channels alive :
  dict_lookup "channels" (config g) = Some channels ->
  outcome (get_alive_streamers channels (Some session) net g) = Return alive ->
  STREAMER_LISTS (after (cycle session net g)) =
    replaced (STREAMER_LISTS g) (list_to_set alive).
Proof.
  intros Hc Hf. rewrite (cycle_fetched _ _ _ _ _ Hc Hf). cbn [prepend after].
  match goal with |- context [sleep_step ?g2] =>
    destruct (quiet_sleep_step g2) as [-> _]
  end.
  reflexivity.
Qed.

Lemma cycle_lists_failed session net g channels e :
  dict_lookup "channels" (config g) = Some channels ->
  outcome (get_alive_streamers channels (Some session) net g) = Raise e ->
  STREAMER_LISTS (after (cycle session net g)) = STREAMER_LISTS g.
Proof.
  intros Hc Hf. rewrite (cycle_fetch_failed _ _ _ _ _ Hc Hf). cbn [after].
  apply quiet_get_alive_streamers.
Qed.

(** C2, as the code has it: before the first cycle every configured
    streamer is in the offline set and none in the joined set.  A cycle
    whose fetch returns replaces both sets, the joined set by the live set
    just fetched and the offline set by the streamers that were joined and
    are live no more; the two sets are logged before they are stored, so
    this is stated for names the log takes as plain text.  A cycle whose
    fetch fails leaves both as they were, and no cycle changes them in
    another way.  So at rest the two sets are disjoint and a streamer is
    in at most one of them. *)
Theorem tracking_sets_disjoint file ticks :
  outcome (module_body (loaded file)) = Return tt ->
  let g0 := after (module_body (loaded file)) in
  (exists configured,
     py_set (py_get file "channels") = Return configured /\
     lists_get (STREAMER_LISTS g0) "joined" = ∅ /\
     lists_get (STREAMER_LISTS g0) "offline" = configured) /\
  tracking_disjoint (after (main ticks g0)) /\
  (forall session net g,
     (STREAMER_LISTS (after (cycle session net g)) = STREAMER_LISTS g \/
      exists channels alive,
        dict_lookup "channels" (config g) = Some channels /\
        outcome (get_alive_streamers channels (Some session) net g) = Return alive /\
        STREAMER_LISTS (after (cycle session net g)) =
          replaced (STREAMER_LISTS g) (list_to_set alive)) /\
     (forall channels alive,
        dict_lookup "channels" (config g) = Some channels ->
        outcome (get_alive_streamers channels (Some session) net g) = Return alive ->
        (forall n, n ∈ alive \/ n ∈ lists_get (STREAMER_LISTS g) "joined" ->
                   markup_free n = true) ->
        STREAMER_LISTS (after (cycle session net g)) =
          replaced (STREAMER_LISTS g) (list_to_set alive) /\
        lists_get (STREAMER_LISTS (after (cycle session net g))) "joined" =
          list_to_set alive /\
        lists_get (STREAMER_LISTS (after (cycle session net g))) "offline" =
          lists_get (STREAMER_LISTS g) "joined" ∖ list_to_set alive) /\
     (forall channels e,
        dict_lookup "channels" (config g) = Some channels ->
        outcome (get_alive_streamers channels (Some session) net g) = Raise e ->
        STREAMER_LISTS (after (cycle session net g)) = STREAMER_LISTS g)).
Proof.
  intros H g0. destruct (module_body_lists file H) as (configured & Hset & Hlists).
  assert (Hj : lists_get (STREAMER_LISTS g0) "joined" = ∅).
  { subst g0. rewrite Hlists. unfold lists_get. now rewrite lookup_insert_eq. }
  assert (Ho : lists_get (STREAMER_LISTS g0) "offline" = configured).
  { subst g0. rewrite Hlists. unfold lists_get.
    rewrite lookup_insert_ne by discriminate. now rewrite lookup_singleton_eq. }
  split; [now exists configured|]. split.
  - rewrite main_after. apply main_loop_disjoint.
    unfold tracking_disjoint. rewrite Hj. apply disjoint_empty_l.
  - intros session net g. split; [|split].
    + destruct (dict_lookup "channels" (config g)) as [channels|] eqn:Hc.
      2:{ left. now rewrite (cycle_no_channels _ _ _ Hc). }
      destruct (outcome (get_alive_streamers channels (Some session) net g))
        as [alive|e] eqn:Hf.
      * right. exists channels, alive. repeat split; auto.
        now apply cycle_lists_fetched with channels.
      * left. now apply cycle_lists_failed with channels e.
    + intros channels alive Hc Hf _.
      rewrite (cycle_lists_fetched _ _ _ _ _ Hc Hf).
      now rewrite replaced_joined, replaced_offline.
    + intros channels e. apply cycle_lists_failed.
Qed.

Lemma tracking_sets_disjoint_witness :
  tracking_disjoint
    (after (main [answers token_ok [true; false]; answers token_ok [false; true]]
              (after (module_body (loaded (sample_config (PyInt 30) ["alice"; "bob"])))))).
Proof.
  refine (proj1 (proj2 (tracking_sets_disjoint
                          (sample_config (PyInt 30) ["alice"; "bob"])
                          [answers token_ok [true; false]; answers token_ok [false; true]]
                          _))).
  vm_compute. reflexivity.
Defined.

(** C2 as stated fails: after the first cycle of [only_alice_live] bob,
    who is configured, is in neither set. *)
Lemma configured_streamer_in_neither_set :
  py_set (py_get (sample_config (PyInt 30) ["alice"; "bob"]) "channels") =
    Return {[ "alice"; "bob" ]} /\
  outcome only_alice_live = Return tt /\
  ("bob" ∉ lists_get (STREAMER_LISTS (after only_alice_live)) "joined") /\
  ("bob" ∉ lists_get (STREAMER_LISTS (after only_alice_live)) "offline").
Proof.
  assert (Hj : elements (lists_get (STREAMER_LISTS (after only_alice_live)) "joined") =
               ["alice"]) by (vm_compute; reflexivity).
  assert (Ho : elements (lists_get (STREAMER_LISTS (after only_alice_live)) "offline") =
               []) by (vm_compute; reflexivity).
  split; [vm_compute; reflexivity|]. split; [vm_compute; reflexivity|].
  split; rewrite <- elem_of_elements.
  - rewrite Hj. intros H. apply list_elem_of_singleton in H. discriminate H.
  - rewrite Ho. apply not_elem_of_nil.
Qed.

(** * Further properties *)

(** ** Actions that keep the globals *)

Create HintDb frame.

Lemma keeps_ret {A} (a : A) : keeps_globals (io_ret a).
Proof. intros g. reflexivity. Qed.

Lemma keeps_raise {A} (e : exn) : keeps_globals (@raise A e).
Proof. intros g. reflexivity. Qed.

Lemma keeps_lift {A} (r : result A) : keeps_globals (lift r).
Proof. intros g. reflexivity. Qed.

Lemma keeps_emit e : keeps_globals (emit e).
Proof. intros g. reflexivity. Qed.

Lemma keeps_log tag about : keeps_globals (log tag about).
Proof. intros g. reflexivity. Qed.

Lemma keeps_read_config : keeps_globals read_config.
Proof. intros g. reflexivity. Qed.

Lemma keeps_bind {A B} (m : IO A) (k : A -> IO B) :
  keeps_globals m -> (forall a, keeps_globals (k a)) -> keeps_globals (io_bind m k).
Proof.
  intros Hm Hk g. rewrite after_bind. rewrite (Hm g).
  destruct (outcome (m g)); [apply Hk | reflexivity].
Qed.

Lemma keeps_if {A} (b : bool) (m1 m2 : IO A) :
  keeps_globals m1 -> keeps_globals m2 -> keeps_globals (if b then m1 else m2).
Proof. now destruct b. Qed.

#[local] Hint Resolve keeps_ret keeps_raise keeps_lift keeps_emit keeps_log
  keeps_read_config keeps_if : frame.

Ltac frame_tac :=
  repeat match goal with
  | |- keeps_globals (io_bind _ _) => apply keeps_bind; [|intros ?]
  | |- keeps_globals (if _ then _ else _) => apply keeps_if
  | |- keeps_globals (match ?x with _ => _ end) => destruct x
  | |- keeps_globals _ => solve [auto with frame]
  end.

Lemma keeps_config_getitem k : keeps_globals (config_getitem k).
Proof. unfold config_getitem. frame_tac. Qed.

Lemma keeps_retrieve_access_token cid cs s resp :
  keeps_globals (retrieve_access_token cid cs s resp).
Proof. unfold retrieve_access_token. frame_tac. Qed.

Lemma keeps_retrieve_streaming_status cid tok name s resp :
  keeps_globals (retrieve_streaming_status cid tok name s resp).
Proof. unfold retrieve_streaming_status. frame_tac. Qed.

#[local] Hint Resolve keeps_config_getitem keeps_retrieve_access_token
  keeps_retrieve_streaming_status : frame.

Lemma keeps_status_task tok s net i name : keeps_globals (status_task tok s net i name).
Proof. unfold status_task. frame_tac. Qed.

(** ** The token request, further *)




(** X2: when the body is a JSON object without a token, or with a null
    one, the request fails with [KeyError("access_token")] after logging
    the error; a session the function opened for itself is not closed on
    that path. *)
Theorem token_missing cid cs s st d g :
  st <> 500 ->
  py_get d "access_token" = PyNone ->
  outcome (retrieve_access_token cid cs s (Response st (Some (PyDict d))) g) =
    Raise (KeyError "access_token") /\
  after (retrieve_access_token cid cs s (Response st (Some (PyDict d))) g) = g /\
  ~ In EvCloseSession
       (emitted (retrieve_access_token cid cs s (Response st (Some (PyDict d))) g)).
Proof.
  intros Hst Hv.
  rewrite (token_status_other _ _ _ _ _ _ Hst), (read_token_absent _ _ _ Hv).
  cbn [prepend outcome after emitted]. repeat split.
  destruct (String.prefix "2" (pretty st)); cbn; intuition discriminate.
Qed.

Lemma token_missing_witness :
  outcome (retrieve_access_token (PyStr "id") (PyStr "secret") None
             (Response 200 (Some (PyDict [("access_token", PyNone)]))) (loaded [])) =
  Raise (KeyError "access_token").
Proof.
  apply (token_missing (PyStr "id") (PyStr "secret") None 200
           [("access_token", PyNone)] (loaded [])).
  - discriminate.
  - reflexivity.
Defined.

(** ** The status query, further *)

(** X3: with an access token that is not a string the status query fails
    with [TypeError] while it builds the headers: no request is sent and
    the globals stay as they are, whatever the response would have been. *)
Theorem status_needs_str_token cid tok name s resp g :
  (forall t, tok <> PyStr t) ->
  retrieve_streaming_status cid tok name s resp g =
    Run (Raise (TypeError "can only concatenate str")) g [].
Proof.
  intros Htok. unfold retrieve_streaming_status.
  destruct tok; try (cbn [str_add]; now rewrite bind_lift_raise).
  now destruct (Htok s0).
Qed.

Lemma status_needs_str_token_witness :
  retrieve_streaming_status (PyStr "id") (PyInt 7) "alice" None (streams 1) (loaded []) =
    Run (Raise (TypeError "can only concatenate str")) (loaded []) [].
Proof.
  apply (status_needs_str_token (PyStr "id") (PyInt 7) "alice" None (streams 1) (loaded [])).
  intros t. discriminate.
Defined.

(** ** The batch of status queries *)

Lemma dict_lookup_setitem_eq {V} k (v : V) d :
  dict_lookup k (dict_setitem k v d) = Some v.
Proof.
  induction d as [|[k' v'] d IH]; cbn.
  - now rewrite String.eqb_refl.
  - destruct (String.eqb k k') eqn:E; cbn; rewrite ?String.eqb_refl, ?E; auto.
Qed.

Lemma dict_lookup_setitem_ne {V} k k' (v : V) d :
  k <> k' -> dict_lookup k' (dict_setitem k v d) = dict_lookup k' d.
Proof.
  intros Hne. induction d as [|[k0 v0] d IH]; cbn.
  - destruct (String.eqb_spec k' k); [congruence | reflexivity].
  - destruct (String.eqb_spec k k0) as [->|]; cbn.
    + destruct (String.eqb_spec k' k0); [congruence | reflexivity].
    + destruct (String.eqb k' k0); auto.
Qed.

Lemma bind_write_config {B} c (k : unit -> IO B) g :
  io_bind (write_config c) k g = k tt (Globals c (STREAMER_LISTS g)).
Proof. unfold io_bind. cbn. now destruct (k tt _). Qed.

Lemma emitted_bind {A B} (m : IO A) (k : A -> IO B) g :
  emitted (io_bind m k g) =
    match outcome (m g) with
    | Return a => (emitted (m g) ++ emitted (k a (after (m g))))%list
    | Raise _ => emitted (m g)
    end.
Proof. unfold io_bind. now destruct (outcome (m g)). Qed.

Lemma outcome_bind {A B} (m : IO A) (k : A -> IO B) g :
  outcome (io_bind m k g) =
    match outcome (m g) with
    | Return a => outcome (k a (after (m g)))
    | Raise e => Raise e
    end.
Proof. unfold io_bind. now destruct (outcome (m g)). Qed.

(** The rest of [get_alive_streamers] once the token is there. *)
Lemma get_alive_with_token channels s net g cid cs tok :
  dict_lookup "client_id" (config g) = Some cid ->
  dict_lookup "client_secret" (config g) = Some cs ->
  outcome (retrieve_access_token cid cs s (token_response net) g) = Return tok ->
  get_alive_streamers channels s net g =
    prepend (emitted (retrieve_access_token cid cs s (token_response net) g))
      ((names <- lift (iter_streamers channels) ;;
        data <- gather (imap (status_task tok s net) names) ;;
        io_ret (map fst (List.filter snd (ChainMap_dict data))))
         (Globals (dict_setitem "access_token" tok (config g)) (STREAMER_LISTS g))).
Proof.
  intros Hid Hsecret Htok. unfold get_alive_streamers.
  rewrite (bind_config_getitem _ _ _ _ Hid), (bind_config_getitem _ _ _ _ Hsecret).
  rewrite (bind_step _ _ _ _ Htok), keeps_retrieve_access_token.
  now rewrite bind_read_config, bind_write_config.
Qed.

Lemma gather_imap_returns {A B} (f : nat -> A -> IO B) (r : nat -> A -> B) names g :
  (forall i n, keeps_globals (f i n)) ->
  (forall i n, names !! i = Some n -> outcome (f i n g) = Return (r i n)) ->
  outcome (gather (imap f names) g) = Return (imap r names) /\
  after (gather (imap f names) g) = g.
Proof.
  revert f r. induction names as [|n names IH]; intros f r Hk Hf; [now split|].
  cbn [imap gather].
  assert (H0 : outcome (f 0%nat n g) = Return (r 0%nat n)) by now apply Hf.
  destruct (IH (f ∘ S) (r ∘ S)) as [Ho Ha].
  { intros i m. apply Hk. }
  { intros i m Hi. apply (Hf (S i)). exact Hi. }
  rewrite outcome_bind, after_bind, H0, (Hk 0%nat n g).
  rewrite outcome_bind, after_bind, Ho, Ha. now split.
Qed.

Lemma gather_imap_raises {A B} (f : nat -> A -> IO B) names g i n :
  (forall i n, keeps_globals (f i n)) ->
  names !! i = Some n ->
  (exists e, outcome (f i n g) = Raise e) ->
  exists e, outcome (gather (imap f names) g) = Raise e.
Proof.
  revert f i. induction names as [|n0 names IH]; intros f i Hk Hi He; [discriminate|].
  cbn [imap gather]. rewrite outcome_bind, (Hk 0%nat n0 g).
  destruct i as [|i].
  - injection Hi as ->. destruct He as [e ->]. now exists e.
  - destruct (outcome (f 0%nat n0 g)) as [a|e]; [|now exists e].
    rewrite outcome_bind.
    destruct (IH (f ∘ S) i) as [e ->]; [intros j m; apply Hk | exact Hi | exact He |].
    now exists e.
Qed.

Lemma gather_imap_keys {A B} (f : nat -> A -> IO B) (key : B -> A) names g data :
  (forall i n g' b, outcome (f i n g') = Return b -> key b = n) ->
  outcome (gather (imap f names) g) = Return data ->
  map key data = names.
Proof.
  revert f g data. induction names as [|n names IH]; intros f g data Hkey.
  - cbn. intros [= <-]. reflexivity.
  - cbn [imap gather]. rewrite outcome_bind.
    destruct (outcome (f 0%nat n g)) as [b|e] eqn:Hb; [|discriminate].
    rewrite outcome_bind.
    destruct (outcome (gather (imap (f ∘ S) names) (after (f 0%nat n g))))
      as [rest|e] eqn:Hrest; [|discriminate].
    cbn. intros [= <-]. cbn. f_equal.
    + eapply Hkey, Hb.
    + eapply (IH (f ∘ S)); [|exact Hrest]. intros i m g' b'. apply Hkey.
Qed.

Lemma status_by_data_length cid t name s resp g :
  match data_length resp with
  | Some n =>
      outcome (retrieve_streaming_status cid (PyStr t) name s resp g) =
        Return (name, (n =? 1)%nat)
  | None =>
      exists e, outcome (retrieve_streaming_status cid (PyStr t) name s resp g) = Raise e
  end.
Proof.
  unfold data_length. destruct (json_body resp) as [body|] eqn:Hbody.
  2:{ rewrite status_of_non_json by assumption. now eexists. }
  destruct body as [| | | | | |d];
    try (rewrite (status_of_non_object _ _ _ _ _ _ _ Hbody) by discriminate; now eexists).
  destruct (dict_lookup "data" d) as [v|] eqn:Hdata.
  2:{ rewrite (status_of_non_list_object _ _ _ _ _ _ _ Hbody); [now eexists|].
      intros l. unfold py_get. now rewrite Hdata. }
  destruct v as [| | | | |l|];
    try (rewrite (status_of_non_list_object _ _ _ _ _ _ _ Hbody);
         [now eexists | intros l; unfold py_get; rewrite Hdata; discriminate]).
  now apply (status_of_list _ _ _ _ _ d).
Qed.

Lemma status_returns_name cid tok name s resp g b :
  outcome (retrieve_streaming_status cid tok name s resp g) = Return b -> b.1 = name.
Proof.
  destruct tok as [| | | |t| |];
    try (unfold retrieve_streaming_status; cbn [str_add];
         rewrite bind_lift_raise; discriminate).
  pose proof (status_by_data_length cid t name s resp g) as H.
  destruct (data_length resp).
  - rewrite H. now intros [= <-].
  - destruct H as [e ->]. discriminate.
Qed.

Lemma status_task_outcome tok s net i name g cid :
  dict_lookup "client_id" (config g) = Some cid ->
  outcome (status_task tok s net i name g) =
    outcome (retrieve_streaming_status cid tok name s (stream_response net i) g).
Proof. intros H. unfold status_task. now rewrite (bind_config_getitem _ _ _ _ H). Qed.

Lemma status_task_returns_name tok s net i name g b :
  outcome (status_task tok s net i name g) = Return b -> b.1 = name.
Proof.
  destruct (dict_lookup "client_id" (config g)) as [cid|] eqn:Hid.
  - rewrite (status_task_outcome _ _ _ _ _ _ _ Hid). apply status_returns_name.
  - unfold status_task. rewrite (bind_config_getitem_missing _ _ _ Hid). discriminate.
Qed.

(** [dict(ChainMap(...))] keeps each key once, with the value of its first
    dictionary. *)
Lemma filter_snd_map {A} (h : A -> bool) (l : list A) :
  map fst (List.filter snd (map (fun k => (k, h k)) l)) = List.filter h l.
Proof.
  induction l as [|a l IH]; [reflexivity|]. cbn.
  destruct (h a); cbn; now rewrite IH.
Qed.

Lemma live_keys data :
  map fst (List.filter snd (ChainMap_dict data)) =
    List.filter (fun k => default false (dict_lookup k data))
                (rev (remove_dups (dict_keys data))).
Proof. unfold ChainMap_dict. apply filter_snd_map. Qed.

Lemma rev_reverse {A} (l : list A) : rev l = reverse l.
Proof. unfold reverse. apply rev_alt. Qed.

Lemma elem_of_live_keys data x :
  x ∈ map fst (List.filter snd (ChainMap_dict data)) <->
  dict_lookup x data = Some true.
Proof.
  rewrite live_keys, list_elem_of_In, filter_In, <- list_elem_of_In.
  rewrite rev_reverse, elem_of_reverse, elem_of_remove_dups. split.
  - intros [_ H]. destruct (dict_lookup x data) as [[]|]; now try discriminate.
  - intros H. rewrite H. split; [|reflexivity].
    clear -H. induction data as [|[k v] data IH]; [discriminate|].
    cbn [dict_keys map fst dict_lookup] in *. apply elem_of_cons.
    destruct (String.eqb_spec x k) as [E|_]; [now left | right; auto].
Qed.

Lemma NoDup_live_keys data : NoDup (map fst (List.filter snd (ChainMap_dict data))).
Proof.
  rewrite live_keys.
  assert (H : NoDup (rev (remove_dups (dict_keys data))))
    by (rewrite rev_reverse, reverse_Permutation; apply NoDup_remove_dups).
  induction H as [|k l Hk _ IH]; cbn; [constructor|].
  destruct (default false (dict_lookup k data)); [|exact IH].
  constructor; [|exact IH].
  rewrite list_elem_of_In, filter_In, <- list_elem_of_In. tauto.
Qed.

Lemma dict_lookup_imap {B} (b : nat -> B) (names : list string) x v :
  dict_lookup x (imap (fun i n => (n, b i)) names) = Some v <->
  exists i, names !! i = Some x /\ (forall j, (j < i)%nat -> names !! j <> Some x) /\
            v = b i.
Proof.
  revert b. induction names as [|n names IH]; intros b; cbn [imap dict_lookup].
  - split; [discriminate | intros (i & Hi & _); discriminate].
  - destruct (String.eqb_spec x n) as [->|Hne].
    + split.
      * intros [= <-]. exists 0%nat. repeat split. intros j Hj. lia.
      * intros (i & Hi & Hfirst & ->). destruct i as [|i]; [reflexivity|].
        now destruct (Hfirst 0%nat ltac:(lia)).
    + change (imap ((fun i n0 => (n0, b i)) ∘ S) names)
        with (imap (fun i n0 => (n0, (b ∘ S) i)) names).
      rewrite IH. split.
      * intros (i & Hi & Hfirst & ->). exists (S i). repeat split; [exact Hi|].
        intros [|j] Hj; cbn; [congruence | apply Hfirst; lia].
      * intros (i & Hi & Hfirst & ->). destruct i as [|i]; [cbn in Hi; congruence|].
        exists i. repeat split; [exact Hi|].
        intros j Hj. apply (Hfirst (S j)). lia.
Qed.

Lemma dict_lookup_in_keys {V} x (v : V) data :
  dict_lookup x data = Some v -> x ∈ dict_keys data.
Proof.
  induction data as [|[k w] data IH]; [discriminate|].
  cbn [dict_keys map fst dict_lookup]. intros H. apply elem_of_cons.
  destruct (String.eqb_spec x k) as [E|_]; [now left | right; auto].
Qed.

Lemma keeps_gather_imap {A B} (f : nat -> A -> IO B) (l : list A) :
  (forall i x, keeps_globals (f i x)) -> keeps_globals (gather (imap f l)).
Proof.
  revert f. induction l as [|x l IH]; intros f Hf; cbn [imap gather].
  - auto with frame.
  - apply keeps_bind; [apply Hf|]. intros a.
    apply keeps_bind; [|auto with frame].
    apply IH. intros i y. apply Hf.
Qed.

Lemma status_task_live s net t g cid i n :
  dict_lookup "client_id" (config g) = Some cid ->
  is_Some (data_length (stream_response net i)) ->
  outcome (status_task (PyStr t) s net i n g) = Return (n, live_at net i).
Proof.
  intros Hid [k Hk]. rewrite (status_task_outcome _ _ _ _ _ _ _ Hid).
  pose proof (status_by_data_length cid t n s (stream_response net i) g) as H.
  unfold live_at. now rewrite Hk in *.
Qed.

(** X4: when the token request gives a string and every status response
    carries a ["data"] list, the fetch returns, without repeats, exactly
    the streamers whose response has one entry; a streamer listed twice is
    judged by the response to its first query. *)
Theorem fetch_gives_live_streamers channels names s net g cid cs t :
  dict_lookup "client_id" (config g) = Some cid ->
  dict_lookup "client_secret" (config g) = Some cs ->
  outcome (retrieve_access_token cid cs s (token_response net) g) = Return (PyStr t) ->
  iter_streamers channels = Return names ->
  (forall i, (i < length names)%nat -> is_Some (data_length (stream_response net i))) ->
  exists alive,
    outcome (get_alive_streamers channels s net g) = Return alive /\
    NoDup alive /\
    forall x, x ∈ alive <->
      exists i, names !! i = Some x /\
                (forall j, (j < i)%nat -> names !! j <> Some x) /\
                data_length (stream_response net i) = Some 1%nat.
Proof.
  intros Hid Hsecret Htok Hiter Hdata.
  rewrite (get_alive_with_token _ _ _ _ _ _ _ Hid Hsecret Htok).
  cbn [prepend outcome]. rewrite Hiter, bind_lift_return.
  set (g1 := Globals _ _).
  assert (Hid1 : dict_lookup "client_id" (config g1) = Some cid).
  { subst g1. cbn [config]. now rewrite dict_lookup_setitem_ne by discriminate. }
  destruct (gather_imap_returns (status_task (PyStr t) s net)
              (fun i n => (n, live_at net i)) names g1) as [Ho _].
  { intros i n. apply keeps_status_task. }
  { intros i n Hi. apply (status_task_live _ _ _ _ cid); [exact Hid1|].
    apply Hdata. now apply lookup_lt_Some in Hi. }
  rewrite outcome_bind, Ho. cbn [io_ret outcome].
  eexists. split; [reflexivity|]. split; [apply NoDup_live_keys|].
  intros x. rewrite elem_of_live_keys, dict_lookup_imap.
  split; intros (i & Hi & Hfirst & Hlive); exists i; repeat split; auto.
  - unfold live_at in Hlive. specialize (Hdata i (lookup_lt_Some _ _ _ Hi)).
    destruct Hdata as [k Hk]. rewrite Hk in *. symmetry in Hlive.
    apply Nat.eqb_eq in Hlive. now subst k.
  - unfold live_at. now rewrite Hlive.
Qed.

Lemma fetch_gives_live_streamers_witness :
  exists alive,
    outcome (get_alive_streamers (PyList [PyStr "alice"; PyStr "bob"]) (Some (Session 0))
               scenario_B_net scenario_B) = Return alive /\
    NoDup alive /\
    forall x, x ∈ alive <->
      exists i, ["alice"; "bob"] !! i = Some x /\
                (forall j, (j < i)%nat -> ["alice"; "bob"] !! j <> Some x) /\
                data_length (stream_response scenario_B_net i) = Some 1%nat.
Proof.
  apply (fetch_gives_live_streamers (PyList [PyStr "alice"; PyStr "bob"]) ["alice"; "bob"]
           (Some (Session 0)) scenario_B_net scenario_B (PyStr "id") (PyStr "secret") "tok");
    try reflexivity.
  intros [|[|i]] Hi; cbn in Hi; try lia; now eexists.
Defined.

(** X5: one status response without a ["data"] list fails the whole
    fetch: no list of the other streamers comes back. *)
Theorem fetch_fails_when_a_query_fails channels names s net g cid cs t i n :
  dict_lookup "client_id" (config g) = Some cid ->
  dict_lookup "client_secret" (config g) = Some cs ->
  outcome (retrieve_access_token cid cs s (token_response net) g) = Return (PyStr t) ->
  iter_streamers channels = Return names ->
  names !! i = Some n ->
  data_length (stream_response net i) = None ->
  exists e, outcome (get_alive_streamers channels s net g) = Raise e.
Proof.
  intros Hid Hsecret Htok Hiter Hi Hbad.
  rewrite (get_alive_with_token _ _ _ _ _ _ _ Hid Hsecret Htok).
  cbn [prepend outcome]. rewrite Hiter, bind_lift_return.
  set (g1 := Globals _ _).
  assert (Hid1 : dict_lookup "client_id" (config g1) = Some cid).
  { subst g1. cbn [config]. now rewrite dict_lookup_setitem_ne by discriminate. }
  destruct (gather_imap_raises (status_task (PyStr t) s net) names g1 i n) as [e He].
  { intros j m. apply keeps_status_task. }
  { exact Hi. }
  { rewrite (status_task_outcome _ _ _ _ _ _ _ Hid1).
    pose proof (status_by_data_length cid t n s (stream_response net i) g1) as H.
    now rewrite Hbad in H. }
  exists e. now rewrite outcome_bind, He.
Qed.

Lemma fetch_fails_when_a_query_fails_witness :
  exists e,
    outcome (get_alive_streamers (PyList [PyStr "alice"; PyStr "bob"]) (Some (Session 0))
               (CycleNet token_ok
                  (fun i => if (i =? 1)%nat
                            then Response 200 (Some (PyDict [("data", PyStr "not-a-list")]))
                            else streams 1))
               scenario_B) = Raise e.
Proof.
  apply (fetch_fails_when_a_query_fails (PyList [PyStr "alice"; PyStr "bob"])
           ["alice"; "bob"] (Some (Session 0)) _ scenario_B (PyStr "id") (PyStr "secret")
           "tok" 1%nat "bob"); reflexivity.
Defined.

Lemma keeps_after_token channels tok s net :
  keeps_globals
    (names <- lift (iter_streamers channels) ;;
     data <- gather (imap (status_task tok s net) names) ;;
     io_ret (map fst (List.filter snd (ChainMap_dict data)))).
Proof.
  apply keeps_bind; [auto with frame|]. intros names.
  apply keeps_bind; [|auto with frame].
  apply keeps_gather_imap. intros i x. apply keeps_status_task.
Qed.

Lemma get_alive_globals channels s net g :
  after (get_alive_streamers channels s net g) = g \/
  exists cid cs tok,
    dict_lookup "client_id" (config g) = Some cid /\
    dict_lookup "client_secret" (config g) = Some cs /\
    outcome (retrieve_access_token cid cs s (token_response net) g) = Return tok /\
    after (get_alive_streamers channels s net g) =
      Globals (dict_setitem "access_token" tok (config g)) (STREAMER_LISTS g).
Proof.
  destruct (dict_lookup "client_id" (config g)) as [cid|] eqn:Hid.
  2:{ left. unfold get_alive_streamers.
      now rewrite (bind_config_getitem_missing _ _ _ Hid). }
  destruct (dict_lookup "client_secret" (config g)) as [cs|] eqn:Hsecret.
  2:{ left. unfold get_alive_streamers.
      rewrite (bind_config_getitem _ _ _ _ Hid).
      now rewrite (bind_config_getitem_missing _ _ _ Hsecret). }
  destruct (outcome (retrieve_access_token cid cs s (token_response net) g))
    as [tok|e] eqn:Htok.
  - right. exists cid, cs, tok. repeat split; auto.
    rewrite (get_alive_with_token _ _ _ _ _ _ _ Hid Hsecret Htok).
    cbn [prepend after]. apply keeps_after_token.
  - left. unfold get_alive_streamers.
    rewrite (bind_config_getitem _ _ _ _ Hid), (bind_config_getitem _ _ _ _ Hsecret).
    rewrite (bind_raise _ _ _ _ Htok). cbn [after].
    apply keeps_retrieve_access_token.
Qed.

Lemma get_alive_config_other channels s net g k :
  k <> "access_token" ->
  dict_lookup k (config (after (get_alive_streamers channels s net g))) =
    dict_lookup k (config g).
Proof.
  intros Hk.
  destruct (get_alive_globals channels s net g) as [->|(cid & cs & tok & _ & _ & _ & ->)];
    [reflexivity|].
  cbn [config]. apply dict_lookup_setitem_ne. congruence.
Qed.

(** X6: the fetch writes the token it got into [config] under
    ["access_token"], whether or not the status queries succeed afterwards,
    and touches no other key; when the token request fails the globals are
    as before. *)
Theorem fetch_stores_token channels s net g cid cs :
  dict_lookup "client_id" (config g) = Some cid ->
  dict_lookup "client_secret" (config g) = Some cs ->
  let fetch := get_alive_streamers channels s net g in
  (forall tok,
     outcome (retrieve_access_token cid cs s (token_response net) g) = Return tok ->
     config (after fetch) = dict_setitem "access_token" tok (config g) /\
     dict_lookup "access_token" (config (after fetch)) = Some tok) /\
  (forall e,
     outcome (retrieve_access_token cid cs s (token_response net) g) = Raise e ->
     after fetch = g) /\
  (forall k, k <> "access_token" ->
     dict_lookup k (config (after fetch)) = dict_lookup k (config g)) /\
  STREAMER_LISTS (after fetch) = STREAMER_LISTS g.
Proof.
  intros Hid Hsecret fetch. subst fetch. repeat split.
  - rewrite (get_alive_with_token _ _ _ _ _ _ _ Hid Hsecret H).
    cbn [prepend after]. now rewrite keeps_after_token.
  - rewrite (get_alive_with_token _ _ _ _ _ _ _ Hid Hsecret H).
    cbn [prepend after]. rewrite keeps_after_token. apply dict_lookup_setitem_eq.
  - intros e He. unfold get_alive_streamers.
    rewrite (bind_config_getitem _ _ _ _ Hid), (bind_config_getitem _ _ _ _ Hsecret).
    rewrite (bind_raise _ _ _ _ He). apply keeps_retrieve_access_token.
  - intros k Hk. now apply get_alive_config_other.
  - apply quiet_get_alive_streamers.
Qed.

Lemma fetch_stores_token_witness :
  dict_lookup "access_token"
    (config (after (get_alive_streamers (PyList [PyStr "alice"]) (Some (Session 0))
                      scenario_A_net scenario_A))) = Some (PyStr "tok").
Proof.
  refine (proj2 (proj1 (fetch_stores_token (PyList [PyStr "alice"]) (Some (Session 0))
                          scenario_A_net scenario_A (PyStr "id") (PyStr "secret") _ _)
                   (PyStr "tok") _)); reflexivity.
Defined.

Lemma get_alive_result channels s net g alive :
  outcome (get_alive_streamers channels s net g) = Return alive ->
  exists names,
    iter_streamers channels = Return names /\
    NoDup alive /\
    forall x, x ∈ alive -> x ∈ names.
Proof.
  destruct (dict_lookup "client_id" (config g)) as [cid|] eqn:Hid.
  2:{ unfold get_alive_streamers.
      rewrite (bind_config_getitem_missing _ _ _ Hid). discriminate. }
  destruct (dict_lookup "client_secret" (config g)) as [cs|] eqn:Hsecret.
  2:{ unfold get_alive_streamers. rewrite (bind_config_getitem _ _ _ _ Hid).
      rewrite (bind_config_getitem_missing _ _ _ Hsecret). discriminate. }
  destruct (outcome (retrieve_access_token cid cs s (token_response net) g))
    as [tok|e] eqn:Htok.
  2:{ rewrite (get_alive_token_failed _ _ _ _ _ _ _ Hid Hsecret Htok). discriminate. }
  rewrite (get_alive_with_token _ _ _ _ _ _ _ Hid Hsecret Htok).
  cbn [prepend outcome].
  destruct (iter_streamers channels) as [names|e].
  2:{ rewrite bind_lift_raise. discriminate. }
  rewrite bind_lift_return, outcome_bind.
  set (g1 := Globals _ _).
  destruct (outcome (gather (imap (status_task tok s net) names) g1))
    as [data|e] eqn:Hdata; [|discriminate].
  cbn [io_ret outcome]. intros [= <-]. exists names.
  split; [reflexivity|]. split; [apply NoDup_live_keys|].
  intros x Hx. apply elem_of_live_keys, dict_lookup_in_keys in Hx.
  unfold dict_keys in Hx.
  rewrite (gather_imap_keys _ fst _ _ _ (fun i n g' b => status_task_returns_name _ _ _ _ _ _ _)
             Hdata) in Hx.
  exact Hx.
Qed.

(** X7: whenever the fetch returns, what it returns has no repeats and
    holds only streamers of the channel list it was given. *)
Theorem fetch_result_among_streamers channels s net g alive :
  outcome (get_alive_streamers channels s net g) = Return alive ->
  exists names,
    iter_streamers channels = Return names /\
    NoDup alive /\
    forall x, x ∈ alive -> x ∈ names.
Proof. apply get_alive_result. Qed.

Lemma fetch_result_among_streamers_witness :
  exists names,
    iter_streamers (PyList [PyStr "alice"; PyStr "bob"]) = Return names /\
    NoDup ["bob"] /\
    forall x, x ∈ ["bob"] -> x ∈ names.
Proof.
  apply (fetch_result_among_streamers (PyList [PyStr "alice"; PyStr "bob"])
           (Some (Session 0)) scenario_B_net scenario_B ["bob"]).
  vm_compute. reflexivity.
Defined.

(** ** Cycles, further *)

Lemma keeps_sleep_step : keeps_globals sleep_step.
Proof. unfold sleep_step. frame_tac. Qed.

(** What a cycle leaves behind. *)
Lemma cycle_after_fetched session net g channels alive :
  dict_lookup "channels" (config g) = Some channels ->
  outcome (get_alive_streamers channels (Some session) net g) = Return alive ->
  after (cycle session net g) =
    Globals (config (after (get_alive_streamers channels (Some session) net g)))
            (replaced (STREAMER_LISTS g) (list_to_set alive)).
Proof.
  intros Hc Hf. rewrite (cycle_fetched _ _ _ _ _ Hc Hf). cbn [prepend after].
  apply keeps_sleep_step.
Qed.

Lemma cycle_config_other session net g k :
  k <> "access_token" ->
  dict_lookup k (config (after (cycle session net g))) = dict_lookup k (config g).
Proof.
  intros Hk.
  destruct (dict_lookup "channels" (config g)) as [channels|] eqn:Hc.
  2:{ now rewrite (cycle_no_channels _ _ _ Hc). }
  destruct (outcome (get_alive_streamers channels (Some session) net g))
    as [alive|e] eqn:Hf.
  - rewrite (cycle_after_fetched _ _ _ _ _ Hc Hf). cbn [config].
    now apply get_alive_config_other.
  - rewrite (cycle_fetch_failed _ _ _ _ _ Hc Hf). cbn [after].
    now apply get_alive_config_other.
Qed.

Lemma sent_cycle_unchanged command session net g channels alive :
  dict_lookup "channels" (config g) = Some channels ->
  outcome (get_alive_streamers channels (Some session) net g) = Return alive ->
  list_to_set alive = lists_get (STREAMER_LISTS g) "joined" ->
  sent command (emitted (cycle session net g)) = [].
Proof.
  intros Hc Hf Hsame. rewrite (sent_cycle _ _ _ _ _ _ Hc Hf), Hsame.
  rewrite difference_diag_L, elements_empty.
  reflexivity.
Qed.

(** X8: a cycle that finds the live set it found the cycle before sends
    no command at all. *)
Theorem second_cycle_sends_nothing session net net' g channels channels' alive alive' :
  dict_lookup "channels" (config g) = Some channels ->
  outcome (get_alive_streamers channels (Some session) net g) = Return alive ->
  let g1 := after (cycle session net g) in
  dict_lookup "channels" (config g1) = Some channels' ->
  outcome (get_alive_streamers channels' (Some session) net' g1) = Return alive' ->
  list_to_set alive' =@{gset string} list_to_set alive ->
  forall command, sent command (emitted (cycle session net' g1)) = [].
Proof.
  intros Hc Hf g1 Hc' Hf' Hsame command.
  apply (sent_cycle_unchanged _ _ _ _ _ _ Hc' Hf').
  subst g1. rewrite (cycle_after_fetched _ _ _ _ _ Hc Hf). cbn [STREAMER_LISTS].
  now rewrite replaced_joined.
Qed.

Lemma second_cycle_sends_nothing_witness :
  sent "JOIN"
    (emitted (cycle (Session 0) scenario_B_net
                (after (cycle (Session 0) scenario_B_net scenario_B)))) = [] /\
  sent "PART"
    (emitted (cycle (Session 0) scenario_B_net
                (after (cycle (Session 0) scenario_B_net scenario_B)))) = [].
Proof.
  refine (let H := second_cycle_sends_nothing (Session 0) scenario_B_net scenario_B_net
                     scenario_B (PyList [PyStr "alice"; PyStr "bob"])
                     (PyList [PyStr "alice"; PyStr "bob"]) ["bob"] ["bob"] _ _ _ _ _ in
          conj (H "JOIN") (H "PART")); vm_compute; reflexivity.
Defined.

Lemma sleep_step_returns g :
  outcome (sleep_step g) = Return tt ->
  exists v z, dict_lookup "wait_time" (config g) = Some v /\
              py_int v = Return z /\
              emitted (sleep_step g) = [EvSleep z].
Proof.
  unfold sleep_step.
  destruct (dict_lookup "wait_time" (config g)) as [v|] eqn:Hw.
  2:{ rewrite (bind_config_getitem_missing _ _ _ Hw). discriminate. }
  rewrite (bind_config_getitem _ _ _ _ Hw).
  destruct (py_int v) as [z|e] eqn:Hz.
  2:{ rewrite bind_lift_raise. discriminate. }
  rewrite bind_lift_return. intros _. now exists v, z.
Qed.

(** X9: a cycle that completes ends by sleeping for the configured wait
    time, as [int] reads it, right after the ["Sleeping"] rule; the
    seconds are passed on as they are, whatever their sign. *)
Theorem completed_cycle_sleeps session net g :
  outcome (cycle session net g) = Return tt ->
  exists v z evs,
    dict_lookup "wait_time" (config g) = Some v /\
    py_int v = Return z /\
    emitted (cycle session net g) = (evs ++ [EvRule "Sleeping"; EvSleep z])%list.
Proof.
  destruct (dict_lookup "channels" (config g)) as [channels|] eqn:Hc.
  2:{ rewrite (cycle_no_channels _ _ _ Hc). discriminate. }
  destruct (outcome (get_alive_streamers channels (Some session) net g))
    as [alive|e] eqn:Hf.
  2:{ rewrite (cycle_fetch_failed _ _ _ _ _ Hc Hf). discriminate. }
  rewrite (cycle_fetched _ _ _ _ _ Hc Hf). cbn [prepend outcome emitted].
  intros H. apply sleep_step_returns in H as (v & z & Hw & Hz & ->).
  cbn [config] in Hw. rewrite get_alive_config_other in Hw by discriminate.
  exists v, z.
  exists (EvRule "Beginning Loop" ::
          emitted (get_alive_streamers channels (Some session) net g) ++
          [EvLog PLAIN "config"; EvLog LOG "Alive Streamers Retrieved";
           EvLog LOG "Offline Streamers Retrieved"] ++
          leave_events
            (elements (lists_get (STREAMER_LISTS g) "joined" ∖ list_to_set alive)) ++
          join_events
            (elements (list_to_set alive ∖ lists_get (STREAMER_LISTS g) "joined")))%list.
  repeat split; [exact Hw | exact Hz|].
  unfold cycle_events.
  repeat (rewrite <- app_assoc || rewrite <- app_comm_cons). reflexivity.
Qed.

Lemma completed_cycle_sleeps_witness :
  exists v z evs,
    dict_lookup "wait_time" (config scenario_A) = Some v /\
    py_int v = Return z /\
    emitted (cycle (Session 0) scenario_A_net scenario_A) =
      (evs ++ [EvRule "Sleeping"; EvSleep z])%list.
Proof.
  apply (completed_cycle_sleeps (Session 0) scenario_A_net scenario_A).
  vm_compute. reflexivity.
Defined.

(** ** The channels the bot sits in *)

Lemma occupancy_app chans evs1 evs2 :
  occupancy chans (evs1 ++ evs2) = occupancy (occupancy chans evs1) evs2.
Proof. apply foldl_app. Qed.

Lemma occupancy_quiet chans evs :
  Forall (fun e => is_send e = false) evs -> occupancy chans evs = chans.
Proof.
  intros H. revert chans. induction H as [|e evs He _ IH]; intros chans; [reflexivity|].
  cbn. destruct e; try discriminate; apply IH.
Qed.

Lemma elem_of_channel_list (cs : list string) x :
  x ∈@{gset string} list_to_set (map (String.append "#") cs) <->
  exists y, x = "#" ++ y /\ y ∈ cs.
Proof.
  rewrite elem_of_list_to_set, list_elem_of_In, in_map_iff.
  split; intros (y & H1 & H2); exists y; rewrite list_elem_of_In in *; auto.
Qed.

Lemma elem_of_channels_of streamers x :
  x ∈ channels_of streamers <-> exists y, x = "#" ++ y /\ y ∈ streamers.
Proof. unfold channels_of. apply elem_of_map. Qed.

Lemma occupancy_leave_events chans cs :
  occupancy chans (leave_events cs) =
    chans ∖ list_to_set (map (String.append "#") cs).
Proof.
  revert chans. induction cs as [|c cs IH]; intros chans.
  - cbn. apply set_eq. intros x. rewrite elem_of_difference, elem_of_empty. tauto.
  - change (leave_events (c :: cs))
      with ([EvSend "PART" ("#" ++ c); EvLog LEAVE c] ++ leave_events cs)%list.
    rewrite occupancy_app, IH. cbn.
    apply set_eq. intros x.
    rewrite !elem_of_difference, elem_of_union, elem_of_singleton. tauto.
Qed.

Lemma occupancy_join_events chans cs :
  occupancy chans (join_events cs) =
    chans ∪ list_to_set (map (String.append "#") cs).
Proof.
  revert chans. induction cs as [|c cs IH]; intros chans.
  - cbn. apply set_eq. intros x. rewrite elem_of_union, elem_of_empty. tauto.
  - change (join_events (c :: cs))
      with ([EvSend "JOIN" ("#" ++ c); EvLog JOIN c] ++ join_events cs)%list.
    rewrite occupancy_app, IH. cbn.
    apply set_eq. intros x.
    rewrite !elem_of_union, elem_of_singleton. tauto.
Qed.

Lemma channel_name_inj a b : "#" ++ a = "#" ++ b -> a = b.
Proof. intros H. now injection H. Qed.

Lemma occupancy_reconciled (joined live : gset string) :
  channels_of joined ∖ list_to_set (map (String.append "#") (elements (joined ∖ live)))
    ∪ list_to_set (map (String.append "#") (elements (live ∖ joined))) =
  channels_of live.
Proof.
  apply set_eq. intros x.
  rewrite elem_of_union, elem_of_difference, !elem_of_channel_list, !elem_of_channels_of.
  split.
  - intros [[(y & -> & Hy) Hnot]|(y & -> & Hy)].
    + exists y. split; [reflexivity|].
      destruct (decide (y ∈ live)) as [|Hl]; [assumption|].
      destruct Hnot. exists y. split; [reflexivity|].
      apply elem_of_elements, elem_of_difference. auto.
    + exists y. split; [reflexivity|].
      apply elem_of_elements, elem_of_difference in Hy. tauto.
  - intros (y & -> & Hy).
    destruct (decide (y ∈ joined)) as [Hj|Hj].
    + left. split; [now exists y|].
      intros (y' & E & Hy'). apply channel_name_inj in E as <-.
      apply elem_of_elements, elem_of_difference in Hy'. tauto.
    + right. exists y. split; [reflexivity|].
      apply elem_of_elements, elem_of_difference. auto.
Qed.

Lemma occupancy_cycle session net g :
  occupancy (channels_of (lists_get (STREAMER_LISTS g) "joined"))
            (emitted (cycle session net g)) =
  channels_of (lists_get (STREAMER_LISTS (after (cycle session net g))) "joined").
Proof.
  destruct (dict_lookup "channels" (config g)) as [channels|] eqn:Hc.
  2:{ now rewrite (cycle_no_channels _ _ _ Hc). }
  destruct (quiet_get_alive_streamers channels (Some session) net g) as [Hl Hq].
  destruct (outcome (get_alive_streamers channels (Some session) net g))
    as [alive|e] eqn:Hf.
  - rewrite (cycle_after_fetched _ _ _ _ _ Hc Hf). cbn [STREAMER_LISTS].
    rewrite replaced_joined.
    rewrite (cycle_fetched _ _ _ _ _ Hc Hf). cbn [prepend emitted].
    unfold cycle_events.
    change (EvRule "Beginning Loop" :: ?l) with ([EvRule "Beginning Loop"] ++ l)%list.
    rewrite !occupancy_app.
    rewrite (occupancy_quiet _ [EvRule "Beginning Loop"]) by repeat constructor.
    rewrite (occupancy_quiet _ (emitted (get_alive_streamers _ _ _ _))) by exact Hq.
    rewrite (occupancy_quiet _ [EvLog PLAIN _; _; _]) by repeat constructor.
    rewrite occupancy_leave_events, occupancy_join_events.
    rewrite (occupancy_quiet _ [EvRule "Sleeping"]) by repeat constructor.
    rewrite (occupancy_quiet _ (emitted (sleep_step _))) by apply quiet_sleep_step.
    apply occupancy_reconciled.
  - rewrite (cycle_fetch_failed _ _ _ _ _ Hc Hf). cbn [emitted after]. rewrite Hl.
    apply occupancy_quiet. constructor; [reflexivity | exact Hq].
Qed.

Lemma occupancy_main_loop session ticks g :
  occupancy (channels_of (lists_get (STREAMER_LISTS g) "joined"))
            (emitted (main_loop session ticks g)) =
  channels_of (lists_get (STREAMER_LISTS (after (main_loop session ticks g))) "joined").
Proof.
  revert g. induction ticks as [|net ticks IH]; intros g; [reflexivity|].
  cbn [main_loop]. rewrite emitted_bind, after_bind.
  destruct (outcome (cycle session net g)).
  - now rewrite occupancy_app, occupancy_cycle, IH.
  - apply occupancy_cycle.
Qed.

(** X10: the joined set tracks where the bot sits, as long as every
    name the loop can meet, the joined ones and the configured ones, is
    one the log takes as plain text, so that no log line comes between
    storing the sets and sending the commands.  If the bot sits in the
    channels of the joined set when [main] starts, then after any number
    of cycles, the last of which may have failed, the JOIN and PART
    commands sent so far leave it in the channels of the joined set
    again. *)
Theorem joined_set_tracks_membership ticks g :
  (forall n, n ∈ lists_get (STREAMER_LISTS g) "joined" -> markup_free n = true) ->
  (forall channels names,
     dict_lookup "channels" (config g) = Some channels ->
     iter_streamers channels = Return names ->
     Forall (fun n => markup_free n = true) names) ->
  occupancy (channels_of (lists_get (STREAMER_LISTS g) "joined"))
            (emitted (main ticks g)) =
  channels_of (lists_get (STREAMER_LISTS (after (main ticks g))) "joined").
Proof.
  intros _ _. rewrite main_after.
  assert (E : emitted (main ticks g) =
              ([EvWait ["RPL_ENDOFMOTD"; "ERR_NOMOTD"]; EvLog LOG "Socket Prepared"] ++
               emitted (main_loop (Session 0) ticks g))%list).
  { unfold main, prepare_socket, log. now rewrite !bind_emit. }
  rewrite E, occupancy_app, (occupancy_quiet _ [_; _]) by repeat constructor.
  apply occupancy_main_loop.
Qed.

Lemma joined_set_tracks_membership_witness :
  occupancy (channels_of (lists_get (STREAMER_LISTS swap) "joined"))
            (emitted (main [swap_net] swap)) =
  channels_of (lists_get (STREAMER_LISTS (after (main [swap_net] swap))) "joined").
Proof.
  apply joined_set_tracks_membership.
  - intros n Hn.
    change (lists_get (STREAMER_LISTS swap) "joined")
      with (lists_get {[ "joined" := list_to_set ["alice"];
                         "offline" := list_to_set ["bob"] ]} "joined") in Hn.
    unfold lists_get in Hn. rewrite lookup_insert_eq in Hn. cbn [default] in Hn.
    apply elem_of_list_to_set, list_elem_of_singleton in Hn as ->. reflexivity.
  - intros channels names Hc Hi.
    vm_compute in Hc. injection Hc as <-.
    vm_compute in Hi. injection Hi as <-.
    repeat constructor.
Defined.

(** ** The tracking sets and the configured channels *)

Lemma hashable_strs_entries l ss :
  hashable_strs l = Return ss -> str_entries l = Return ss.
Proof.
  revert ss. induction l as [|v l IH]; intros ss; [trivial|].
  destruct v; cbn; try discriminate.
  destruct (hashable_strs l) as [ss'|e]; [|discriminate].
  intros [= <-]. now rewrite (IH ss').
Qed.

Lemma py_set_iter v configured names :
  py_set v = Return configured ->
  iter_streamers v = Return names ->
  configured = list_to_set names.
Proof.
  destruct v; cbn; try discriminate.
  - intros [= <-] [= <-]. reflexivity.
  - destruct (hashable_strs elts) as [ss|e] eqn:Hs; [|discriminate].
    rewrite (hashable_strs_entries _ _ Hs). now intros [= <-] [= <-].
  - intros [= <-] [= <-]. reflexivity.
Qed.

Lemma validate_returns_true g b :
  outcome (validate_config g) = Return b -> b = true.
Proof.
  destruct (missing_keys (config g)) eqn:E0.
  2:{ rewrite validate_missing by congruence. discriminate. }
  destruct (List.filter has_no_value (config g)) eqn:E1.
  2:{ rewrite validate_no_value by congruence. discriminate. }
  destruct (List.filter has_bad_type (config g)) eqn:E2.
  2:{ rewrite validate_bad_type by congruence. discriminate. }
  rewrite validate_passes by assumption. now intros [= <-].
Qed.

Lemma validate_passes_inv g :
  outcome (validate_config g) = Return true ->
  missing_keys (config g) = [] /\
  List.filter has_no_value (config g) = [] /\
  List.filter has_bad_type (config g) = [].
Proof.
  intros H.
  destruct (missing_keys (config g)) eqn:E0.
  2:{ rewrite validate_missing in H by congruence. discriminate. }
  destruct (List.filter has_no_value (config g)) eqn:E1.
  2:{ rewrite validate_no_value in H by congruence. discriminate. }
  destruct (List.filter has_bad_type (config g)) eqn:E2.
  2:{ rewrite validate_bad_type in H by congruence. discriminate. }
  auto.
Qed.

Lemma validate_logs_none g :
  outcome (validate_config g) = Return true -> emitted (validate_config g) = [].
Proof.
  intros H. apply validate_passes_inv in H as (H0 & H1 & H2).
  run_validate g. rewrite H0. cbn. rewrite ?for_each_log.
  rewrite H1. cbn. rewrite ?for_each_log. now rewrite H2.
Qed.

Lemma module_body_after file :
  outcome (module_body (loaded file)) = Return tt ->
  exists configured,
    py_set (py_get file "channels") = Return configured /\
    outcome (validate_config (loaded file)) = Return true /\
    module_body (loaded file) =
      Run (Return tt) (Globals file {[ "joined" := ∅; "offline" := configured ]})
          [ EvLog LOG "Config Loaded";
            EvClient "irc.chat.twitch.tv" 6697;
            EvCreateTask "bot.connect"; EvCreateTask "main"; EvRunForever ].
Proof.
  unfold module_body, log. rewrite bind_read_config, bind_emit.
  change (config (loaded file)) with file.
  destruct (py_set (py_get file "channels")) as [configured|e0].
  2:{ rewrite bind_lift_raise. discriminate. }
  rewrite bind_lift_return, bind_write_lists.
  change (config (loaded file)) with file.
  set (g1 := Globals file _).
  pose proof (validate_config_only_config (loaded file) (STREAMER_LISTS g1)) as Hsame.
  change (Globals (config (loaded file)) (STREAMER_LISTS g1)) with g1 in Hsame.
  destruct (outcome (validate_config g1)) as [b|e] eqn:Hv.
  2:{ rewrite (bind_raise _ _ _ _ Hv). discriminate. }
  intros _. exists configured. split; [reflexivity|].
  pose proof (validate_returns_true _ _ Hv) as ->.
  split; [now symmetry|].
  rewrite (bind_step _ _ _ _ Hv), validate_config_globals, (validate_logs_none _ Hv).
  reflexivity.
Qed.

Lemma cycle_within session net g v (configured : gset string) :
  py_set v = Return configured ->
  dict_lookup "channels" (config g) = Some v ->
  lists_get (STREAMER_LISTS g) "joined" ⊆ configured ->
  lists_get (STREAMER_LISTS g) "offline" ⊆ configured ->
  lists_get (STREAMER_LISTS (after (cycle session net g))) "joined" ⊆ configured /\
  lists_get (STREAMER_LISTS (after (cycle session net g))) "offline" ⊆ configured.
Proof.
  intros Hset Hc Hj Ho.
  destruct (outcome (get_alive_streamers v (Some session) net g)) as [alive|e] eqn:Hf.
  - rewrite (cycle_after_fetched _ _ _ _ _ Hc Hf). cbn [STREAMER_LISTS].
    rewrite replaced_joined, replaced_offline.
    destruct (get_alive_result _ _ _ _ _ Hf) as (names & Hiter & _ & Hsub).
    rewrite (py_set_iter _ _ _ Hset Hiter) in *. split.
    + intros x Hx. apply elem_of_list_to_set in Hx. apply elem_of_list_to_set. auto.
    + intros x Hx. apply elem_of_difference in Hx as [Hx _]. auto.
  - rewrite (cycle_fetch_failed _ _ _ _ _ Hc Hf). cbn [after].
    destruct (quiet_get_alive_streamers v (Some session) net g) as [-> _]. auto.
Qed.

Lemma main_loop_within session ticks g v (configured : gset string) :
  py_set v = Return configured ->
  dict_lookup "channels" (config g) = Some v ->
  lists_get (STREAMER_LISTS g) "joined" ⊆ configured ->
  lists_get (STREAMER_LISTS g) "offline" ⊆ configured ->
  lists_get (STREAMER_LISTS (after (main_loop session ticks g))) "joined" ⊆ configured /\
  lists_get (STREAMER_LISTS (after (main_loop session ticks g))) "offline" ⊆ configured.
Proof.
  intros Hset. revert g. induction ticks as [|net ticks IH]; intros g Hc Hj Ho; [auto|].
  cbn [main_loop]. rewrite after_bind.
  destruct (cycle_within session net g v configured Hset Hc Hj Ho) as [Hj' Ho'].
  destruct (outcome (cycle session net g)); [|auto].
  apply IH; auto.
  now rewrite cycle_config_other by discriminate.
Qed.

(** X11: from the start of the process on, both tracking sets hold
    configured streamers only, however many cycles have run and however
    they ended. *)
Theorem tracking_sets_within_configured file ticks :
  outcome (module_body (loaded file)) = Return tt ->
  exists configured,
    py_set (py_get file "channels") = Return configured /\
    let g := after (main ticks (after (module_body (loaded file)))) in
    lists_get (STREAMER_LISTS g) "joined" ⊆ configured /\
    lists_get (STREAMER_LISTS g) "offline" ⊆ configured.
Proof.
  intros H. destruct (module_body_after file H) as (configured & Hset & _ & ->).
  exists configured. split; [exact Hset|]. cbn [after]. rewrite main_after.
  apply (main_loop_within _ _ _ (py_get file "channels")); cbn [config STREAMER_LISTS].
  - exact Hset.
  - unfold py_get in *. destruct (dict_lookup "channels" file); [reflexivity|].
    discriminate Hset.
  - unfold lists_get. rewrite lookup_insert_eq. cbn. apply empty_subseteq.
  - unfold lists_get. rewrite lookup_insert_ne by discriminate.
    rewrite lookup_singleton_eq. reflexivity.
Qed.

Lemma tracking_sets_within_configured_witness :
  exists configured,
    py_set (py_get (sample_config (PyInt 30) ["alice"; "bob"]) "channels") =
      Return configured /\
    let g := after (main [answers token_ok [true; false]; answers token_500 []]
                      (after (module_body
                                (loaded (sample_config (PyInt 30) ["alice"; "bob"]))))) in
    lists_get (STREAMER_LISTS g) "joined" ⊆ configured /\
    lists_get (STREAMER_LISTS g) "offline" ⊆ configured.
Proof.
  apply (tracking_sets_within_configured (sample_config (PyInt 30) ["alice"; "bob"])
           [answers token_ok [true; false]; answers token_500 []]).
  vm_compute. reflexivity.
Defined.

(** ** The module's top level, further *)

(** X12: the module computes the offline set from ["channels"] before it
    validates the configuration.  When that value is missing or is not
    iterable (null, a Boolean, a number) the module stops there with a
    [TypeError]: validation never runs and logs none of its errors. *)
Theorem channels_read_before_validation file :
  match py_get file "channels" with
  | PyNone | PyBool _ | PyInt _ | PyFloat _ => True
  | _ => False
  end ->
  module_body (loaded file) =
    Run (Raise (TypeError "object is not iterable")) (loaded file)
        [EvLog LOG "Config Loaded"].
Proof.
  intros H. unfold module_body, log. rewrite bind_read_config, bind_emit.
  change (config (loaded file)) with file.
  destruct (py_get file "channels"); try contradiction;
    cbn [py_set]; now rewrite bind_lift_raise.
Qed.

Lemma channels_read_before_validation_witness :
  module_body (loaded [("bot_username", PyStr "bot")]) =
    Run (Raise (TypeError "object is not iterable"))
        (loaded [("bot_username", PyStr "bot")]) [EvLog LOG "Config Loaded"].
Proof.
  apply (channels_read_before_validation [("bot_username", PyStr "bot")]). exact I.
Defined.

(** X13: the module gets to the event loop only with a configuration that
    passes validation.  It then has logged one line, set the joined set
    empty and the offline set to the configured channels, left the
    configuration as loaded, and created the client and the two tasks in
    that order. *)
Theorem module_starts_only_when_valid file :
  outcome (module_body (loaded file)) = Return tt ->
  exists configured,
    py_set (py_get file "channels") = Return configured /\
    outcome (validate_config (loaded file)) = Return true /\
    module_body (loaded file) =
      Run (Return tt) (Globals file {[ "joined" := ∅; "offline" := configured ]})
          [ EvLog LOG "Config Loaded";
            EvClient "irc.chat.twitch.tv" 6697;
            EvCreateTask "bot.connect"; EvCreateTask "main"; EvRunForever ].
Proof. apply module_body_after. Qed.

Lemma module_starts_only_when_valid_witness :
  exists configured,
    py_set (py_get (sample_config (PyInt 30) ["alice"]) "channels") = Return configured /\
    outcome (validate_config (loaded (sample_config (PyInt 30) ["alice"]))) = Return true /\
    module_body (loaded (sample_config (PyInt 30) ["alice"])) =
      Run (Return tt)
          (Globals (sample_config (PyInt 30) ["alice"])
                   {[ "joined" := ∅; "offline" := configured ]})
          [ EvLog LOG "Config Loaded";
            EvClient "irc.chat.twitch.tv" 6697;
            EvCreateTask "bot.connect"; EvCreateTask "main"; EvRunForever ].
Proof.
  apply (module_starts_only_when_valid (sample_config (PyInt 30) ["alice"])).
  vm_compute. reflexivity.
Defined.

(** ** Validation, further *)

Lemma dict_lookup_In {V} k (v : V) d : dict_lookup k d = Some v -> In (k, v) d.
Proof.
  induction d as [|[k' v'] d IH]; [discriminate|]. cbn.
  destruct (String.eqb_spec k k') as [->|_]; [intros [= ->]; now left | auto].
Qed.

Lemma dict_lookup_in_keys_list {V} k (v : V) d :
  dict_lookup k d = Some v -> In k (dict_keys d).
Proof. intros H. apply list_elem_of_In. eapply dict_lookup_in_keys, H. Qed.

Lemma pytype_is_eq s t : pytype_is s t = true -> s = t.
Proof. now destruct s, t. Qed.

Lemma valid_entry g k v :
  outcome (validate_config g) = Return true ->
  In (k, v) (config g) ->
  exists t, dict_lookup k required_keys = Some t /\ type v = t /\
            (t = t_bool \/ truthy v = true).
Proof.
  intros H Hin. apply validate_passes_inv in H as (_ & H1 & H2).
  rewrite filter_nil_iff in H1, H2.
  specialize (H1 _ Hin). specialize (H2 _ Hin).
  unfold has_bad_type in H2. unfold has_no_value in H1. cbn [fst snd] in *.
  destruct (dict_lookup k required_keys) as [t|]; [|discriminate].
  apply negb_false_iff, pytype_is_eq in H2. exists t. repeat split; auto.
  subst t. destruct (truthy v); [now right|]. left.
  cbn in H1. apply negb_false_iff, pytype_is_eq in H1. now symmetry.
Qed.

Lemma valid_required g k t :
  outcome (validate_config g) = Return true ->
  dict_lookup k required_keys = Some t ->
  exists v, dict_lookup k (config g) = Some v /\ type v = t /\
            (t = t_bool \/ truthy v = true).
Proof.
  intros H Hreq. pose proof (validate_passes_inv _ H) as (H0 & _ & _).
  rewrite missing_keys_nil_iff in H0.
  specialize (H0 k (dict_lookup_in_keys_list _ _ _ Hreq)).
  unfold dict_contains in H0.
  destruct (dict_lookup k (config g)) as [v|] eqn:Hv; [|discriminate].
  exists v. split; [reflexivity|].
  destruct (valid_entry g k v H (dict_lookup_In _ _ _ Hv)) as (t' & Hreq' & Ht & Hval).
  rewrite Hreq in Hreq'. injection Hreq' as <-. auto.
Qed.

(** X14: what a configuration that passes validation looks like.  Each of
    its entries is one of the seven required keys with a value of exactly
    the required type, and non-empty unless it is the Boolean; each
    required key is there.  So the loop finds a non-empty list under
    ["channels"] and a non-zero integer under ["wait_time"]. *)
Theorem valid_config_shape g :
  outcome (validate_config g) = Return true ->
  (forall k v, In (k, v) (config g) ->
     exists t, dict_lookup k required_keys = Some t /\ type v = t /\
               (t = t_bool \/ truthy v = true)) /\
  (forall k t, dict_lookup k required_keys = Some t ->
     exists v, dict_lookup k (config g) = Some v /\ type v = t /\
               (t = t_bool \/ truthy v = true)) /\
  (exists l z,
     dict_lookup "channels" (config g) = Some (PyList l) /\ l <> [] /\
     dict_lookup "wait_time" (config g) = Some (PyInt z) /\ z <> 0).
Proof.
  intros H. split; [|split].
  - intros k v. now apply valid_entry.
  - intros k t. now apply valid_required.
  - destruct (valid_required g "channels" t_list H eq_refl) as (vc & Hc & Htc & Hvc).
    destruct (valid_required g "wait_time" t_int H eq_refl) as (vw & Hw & Htw & Hvw).
    destruct vc as [| | | | |l|]; try discriminate.
    destruct vw as [| |z| | | |]; try discriminate.
    exists l, z. repeat split; auto.
    + destruct Hvc as [|Hvc]; [discriminate|]. now destruct l.
    + destruct Hvw as [|Hvw]; [discriminate|]. cbn in Hvw.
      apply negb_true_iff, Z.eqb_neq in Hvw. exact Hvw.
Qed.

Lemma valid_config_shape_witness :
  exists l z,
    dict_lookup "channels" (config (loaded (sample_config (PyInt 30) ["alice"]))) =
      Some (PyList l) /\ l <> [] /\
    dict_lookup "wait_time" (config (loaded (sample_config (PyInt 30) ["alice"]))) =
      Some (PyInt z) /\ z <> 0.
Proof.
  apply (valid_config_shape (loaded (sample_config (PyInt 30) ["alice"]))).
  reflexivity.
Defined.






(** ** Joining and leaving *)

(** X16: on names the log takes as plain text, [join_channels] and
    [leave_channels] return [True] and change no global.  Each sends one
    command per name, in the order of the list and to the channel
    ["#" + name], and logs it right after; on an empty list they do
    nothing. *)
Theorem one_command_per_channel channels g :
  Forall (fun n => markup_free n = true) channels ->
  join_channels channels g = Run (Return true) g (join_events channels) /\
  leave_channels channels g = Run (Return true) g (leave_events channels) /\
  sent "JOIN" (join_events channels) = map (String.append "#") channels /\
  sent "PART" (leave_events channels) = map (String.append "#") channels /\
  sent "PART" (join_events channels) = [] /\
  sent "JOIN" (leave_events channels) = [] /\
  length (join_events channels) = (2 * length channels)%nat /\
  length (leave_events channels) = (2 * length channels)%nat.
Proof.
  intros _.
  split; [apply join_channels_run|]. split; [apply leave_channels_run|].
  rewrite !sent_join_events, !sent_leave_events.
  do 4 (split; [reflexivity|]).
  split; induction channels as [|c cs IH]; cbn [join_events leave_events flat_map app length];
    try reflexivity.
  - fold (join_events cs). rewrite IH. cbn [length]. lia.
  - fold (leave_events cs). rewrite IH. cbn [length]. lia.
Qed.

Lemma one_command_per_channel_witness :
  Forall (fun n => markup_free n = true) ["alice"; "bob"] /\
  join_channels ["alice"; "bob"] swap =
    Run (Return true) swap (join_events ["alice"; "bob"]) /\
  leave_channels ["alice"; "bob"] swap =
    Run (Return true) swap (leave_events ["alice"; "bob"]).
Proof.
  assert (H : Forall (fun n => markup_free n = true) ["alice"; "bob"])
    by (repeat constructor).
  split; [exact H|].
  split; [exact (proj1 (one_command_per_channel _ swap H))|].
  exact (proj1 (proj2 (one_command_per_channel _ swap H))).
Defined.

(** ** Logging in *)

Lemma prefix_oauth s : String.prefix "oauth:" ("oauth:" ++ s) = true.
Proof. destruct s; vm_compute; reflexivity. Qed.

(** X17: on connecting, [connect] sends the password, the nickname and
    the capability request, in that order.  The password always starts
    with ["oauth:"]: a token that has the prefix is sent as it is, any
    other gets the prefix once.  Without an ["oauth_token"] key nothing is
    sent. *)
Theorem connect_sends_oauth_password config :
  (forall token username,
     dict_lookup "oauth_token" config = Some (PyStr token) ->
     dict_lookup "bot_username" config = Some username ->
     exists password,
       connect config =
         Return [ HsSend "PASS" "password" (PyStr password);
                  HsSend "NICK" "nick" username;
                  HsSendRaw "CAP REQ :twitch.tv/membership";
                  HsRule "Logged In" ] /\
       String.prefix "oauth:" password = true /\
       (String.prefix "oauth:" token = true -> password = token) /\
       (String.prefix "oauth:" token = false -> password = "oauth:" ++ token)) /\
  (dict_lookup "oauth_token" config = None ->
   connect config = Raise (KeyError "oauth_token")).
Proof.
  split.
  - intros token username Htoken Huser. unfold connect. rewrite Htoken. cbn [py_startswith].
    destruct (String.prefix "oauth:" token) eqn:Hp; cbn [negb str_add]; rewrite Huser.
    + exists token. repeat split; auto. discriminate.
    + exists ("oauth:" ++ token). repeat split; auto using prefix_oauth. discriminate.
  - intros H. unfold connect. now rewrite H.
Qed.

Lemma connect_sends_oauth_password_witness :
  exists password,
    connect (sample_config (PyInt 30) ["alice"]) =
      Return [ HsSend "PASS" "password" (PyStr password);
               HsSend "NICK" "nick" (PyStr "bot");
               HsSendRaw "CAP REQ :twitch.tv/membership";
               HsRule "Logged In" ] /\
    String.prefix "oauth:" password = true /\
    (String.prefix "oauth:" "oauth:abc" = true -> password = "oauth:abc") /\
    (String.prefix "oauth:" "oauth:abc" = false -> password = "oauth:" ++ "oauth:abc").
Proof.
  apply (proj1 (connect_sends_oauth_password (sample_config (PyInt 30) ["alice"]))
           "oauth:abc" (PyStr "bot")); reflexivity.
Defined.
